(** * component-library: the relational schema, the seed script and the
      Prisma client singleton

    Shallow embedding of
    - [prisma/migrations/.../migration.sql]: four tables, their primary keys,
      unique indexes and the two cascading foreign keys;
    - [prisma/seed.ts]: [main] and the promise chain that runs it;
    - [src/lib/prisma.ts]: the client singleton.

    Tables are lists of rows in insertion order; every constraint of the
    migration is an explicit check made by the statement that could break
    it.  The seed script runs in a small monad that threads the process
    state and distinguishes a fulfilled promise, a rejected promise and a
    terminated process. *)

From Stdlib Require Import String List ZArith Bool Lia.
Import ListNotations.
Local Open Scope string_scope.
Local Open Scope list_scope.

(** ** Errors and results *)

Inductive Error : Type :=
| UniqueConstraintViolation (constraint : string)
| ForeignKeyViolation (constraint : string)
| ValidationError (argument : string)
| ConnectionError.

Inductive Result (A : Type) : Type :=
| Ok (a : A)
| Err (e : Error).
Arguments Ok {A} a.
Arguments Err {A} e.

(** Milliseconds since the epoch, as in [TIMESTAMP(3)]. *)
Definition Timestamp := Z.

(** ** The schema (migration.sql) *)

(** [CREATE TABLE "Component"].  [tags] and [dependencies] are [TEXT[]]
    columns without [NOT NULL]: [None] is SQL [NULL]. *)
Module Component.
Record t : Type := mk {
  id : string;
  name : string;
  description : string;
  category : string;
  tags : option (list string);
  filePath : string;
  componentPath : string;
  code : string;
  dependencies : option (list string);
  responsive : bool;
  darkMode : bool;
  views : Z;
  copies : Z;
  createdAt : Timestamp;
  updatedAt : Timestamp
}.
End Component.

(** [CREATE TABLE "Favorite"]. *)
Module Favorite.
Record t : Type := mk {
  id : string;
  userId : string;
  componentId : string;
  createdAt : Timestamp
}.

(** The columns of the index [Favorite_userId_componentId_key]. *)
Definition key (f : t) : string * string := (userId f, componentId f).

Definition with_componentId (cid : string) (f : t) : t :=
  mk (id f) (userId f) cid (createdAt f).
End Favorite.

(** [CREATE TABLE "ComponentVersion"]; [changelog] is nullable. *)
Module ComponentVersion.
Record t : Type := mk {
  id : string;
  componentId : string;
  version : string;
  code : string;
  changelog : option string;
  createdAt : Timestamp
}.

Definition with_componentId (cid : string) (v : t) : t :=
  mk (id v) cid (version v) (code v) (changelog v) (createdAt v).
End ComponentVersion.

(** [CREATE TABLE "User"]; [name] is nullable. *)
Module User.
Record t : Type := mk {
  id : string;
  email : string;
  name : option string;
  role : string;
  createdAt : Timestamp;
  updatedAt : Timestamp
}.
End User.

Record Database : Type := mkDatabase {
  components : list Component.t;
  favorites : list Favorite.t;
  versions : list ComponentVersion.t;
  users : list User.t
}.

Definition empty_database : Database := mkDatabase [] [] [] [].

(** ** Statements against the schema *)

Definition mem (x : string) (l : list string) : bool :=
  existsb (String.eqb x) l.

Definition has_component (cid : string) (db : Database) : bool :=
  mem cid (map Component.id (components db)).

Definition has_favorite (fid : string) (db : Database) : bool :=
  mem fid (map Favorite.id (favorites db)).

Definition has_version (vid : string) (db : Database) : bool :=
  mem vid (map ComponentVersion.id (versions db)).

Definition has_user (uid : string) (db : Database) : bool :=
  mem uid (map User.id (users db)).

Definition has_email (e : string) (db : Database) : bool :=
  mem e (map User.email (users db)).

Definition key_eqb (k1 k2 : string * string) : bool :=
  (fst k1 =? fst k2) && (snd k1 =? snd k2).

(** Is the pair (userId, componentId) already in the unique index? *)
Definition has_favorite_key (k : string * string) (l : list Favorite.t) : bool :=
  existsb (fun g => key_eqb (Favorite.key g) k) l.

(** [UPDATE ... SET (all columns) = row WHERE id = target]. *)
Definition replace_row {A : Type} (id : A -> string) (target : string)
  (row : A) (l : list A) : list A :=
  map (fun a => if id a =? target then row else a) l.

(** [INSERT INTO "Component"]: checked against [Component_pkey]. *)
Definition insert_component (row : Component.t) (db : Database)
  : Result Database :=
  if has_component (Component.id row) db
  then Err (UniqueConstraintViolation "Component_pkey")
  else Ok (mkDatabase (components db ++ [row])
                      (favorites db) (versions db) (users db)).

(** [DELETE FROM "Component" WHERE p].  Both foreign keys are
    [ON DELETE CASCADE]: the rows of "Favorite" and "ComponentVersion" that
    reference a deleted component go with it. *)
Definition delete_components_where (p : Component.t -> bool) (db : Database)
  : Database :=
  let gone := map Component.id (filter p (components db)) in
  mkDatabase
    (filter (fun c => negb (p c)) (components db))
    (filter (fun f => negb (mem (Favorite.componentId f) gone)) (favorites db))
    (filter (fun v => negb (mem (ComponentVersion.componentId v) gone))
            (versions db))
    (users db).

Definition delete_component (cid : string) (db : Database) : Database :=
  delete_components_where (fun c => Component.id c =? cid) db.

(** [UPDATE "Component" SET ... WHERE id = cid]: the row becomes [row].
    A changed id is checked against [Component_pkey] and, both foreign keys
    being [ON UPDATE CASCADE], follows into the referencing rows. *)
Definition update_component (cid : string) (row : Component.t) (db : Database)
  : Result Database :=
  if negb (has_component cid db) then Ok db
  else if negb (Component.id row =? cid) && has_component (Component.id row) db
  then Err (UniqueConstraintViolation "Component_pkey")
  else
    let rename x := if x =? cid then Component.id row else x in
    Ok (mkDatabase
          (replace_row Component.id cid row (components db))
          (map (fun f => Favorite.with_componentId
                           (rename (Favorite.componentId f)) f)
               (favorites db))
          (map (fun v => ComponentVersion.with_componentId
                           (rename (ComponentVersion.componentId v)) v)
               (versions db))
          (users db)).

(** [INSERT INTO "Favorite"]: checked against [Favorite_pkey], the unique
    index [Favorite_userId_componentId_key] and [Favorite_componentId_fkey]. *)
Definition insert_favorite (row : Favorite.t) (db : Database)
  : Result Database :=
  if has_favorite (Favorite.id row) db
  then Err (UniqueConstraintViolation "Favorite_pkey")
  else if has_favorite_key (Favorite.key row) (favorites db)
  then Err (UniqueConstraintViolation "Favorite_userId_componentId_key")
  else if negb (has_component (Favorite.componentId row) db)
  then Err (ForeignKeyViolation "Favorite_componentId_fkey")
  else Ok (mkDatabase (components db) (favorites db ++ [row])
                      (versions db) (users db)).

Definition delete_favorite (fid : string) (db : Database) : Database :=
  mkDatabase (components db)
             (filter (fun f => negb (Favorite.id f =? fid)) (favorites db))
             (versions db) (users db).

(** [UPDATE "Favorite" SET ... WHERE id = fid]: the three constraints are
    checked against the other rows of the table. *)
Definition update_favorite (fid : string) (row : Favorite.t) (db : Database)
  : Result Database :=
  let others := filter (fun f => negb (Favorite.id f =? fid)) (favorites db) in
  if negb (has_favorite fid db) then Ok db
  else if mem (Favorite.id row) (map Favorite.id others)
  then Err (UniqueConstraintViolation "Favorite_pkey")
  else if has_favorite_key (Favorite.key row) others
  then Err (UniqueConstraintViolation "Favorite_userId_componentId_key")
  else if negb (has_component (Favorite.componentId row) db)
  then Err (ForeignKeyViolation "Favorite_componentId_fkey")
  else Ok (mkDatabase (components db)
             (replace_row Favorite.id fid row (favorites db))
             (versions db) (users db)).

(** [INSERT INTO "ComponentVersion"]: [ComponentVersion_pkey] and
    [ComponentVersion_componentId_fkey]. *)
Definition insert_version (row : ComponentVersion.t) (db : Database)
  : Result Database :=
  if has_version (ComponentVersion.id row) db
  then Err (UniqueConstraintViolation "ComponentVersion_pkey")
  else if negb (has_component (ComponentVersion.componentId row) db)
  then Err (ForeignKeyViolation "ComponentVersion_componentId_fkey")
  else Ok (mkDatabase (components db) (favorites db)
                      (versions db ++ [row]) (users db)).

Definition delete_version (vid : string) (db : Database) : Database :=
  mkDatabase (components db) (favorites db)
             (filter (fun v => negb (ComponentVersion.id v =? vid))
                     (versions db))
             (users db).

(** [INSERT INTO "User"]: [User_pkey] and the unique index [User_email_key].
    No foreign key references this table. *)
Definition insert_user (row : User.t) (db : Database) : Result Database :=
  if has_user (User.id row) db
  then Err (UniqueConstraintViolation "User_pkey")
  else if has_email (User.email row) db
  then Err (UniqueConstraintViolation "User_email_key")
  else Ok (mkDatabase (components db) (favorites db) (versions db)
                      (users db ++ [row])).

Definition delete_user (uid : string) (db : Database) : Database :=
  mkDatabase (components db) (favorites db) (versions db)
             (filter (fun u => negb (User.id u =? uid)) (users db)).

Inductive Statement : Type :=
| InsertComponent (row : Component.t)
| DeleteComponent (cid : string)
| DeleteAllComponents
| UpdateComponent (cid : string) (row : Component.t)
| InsertFavorite (row : Favorite.t)
| DeleteFavorite (fid : string)
| UpdateFavorite (fid : string) (row : Favorite.t)
| InsertVersion (row : ComponentVersion.t)
| DeleteVersion (vid : string)
| InsertUser (row : User.t)
| DeleteUser (uid : string).

Definition execute (st : Statement) (db : Database) : Result Database :=
  match st with
  | InsertComponent row => insert_component row db
  | DeleteComponent cid => Ok (delete_component cid db)
  | DeleteAllComponents => Ok (delete_components_where (fun _ => true) db)
  | UpdateComponent cid row => update_component cid row db
  | InsertFavorite row => insert_favorite row db
  | DeleteFavorite fid => Ok (delete_favorite fid db)
  | UpdateFavorite fid row => update_favorite fid row db
  | InsertVersion row => insert_version row db
  | DeleteVersion vid => Ok (delete_version vid db)
  | InsertUser row => insert_user row db
  | DeleteUser uid => Ok (delete_user uid db)
  end.

(** A statement that fails changes nothing. *)
Definition apply_statement (st : Statement) (db : Database) : Database :=
  match execute st db with
  | Ok db' => db'
  | Err _ => db
  end.

(** The database states that statements can produce from the empty
    database the migration creates. *)
Inductive reachable : Database -> Prop :=
| reachable_empty : reachable empty_database
| reachable_step st db db' :
    reachable db -> execute st db = Ok db' -> reachable db'.


(** ** JavaScript values and the catalog (src/lib/componentRegistry.ts) *)

(** The values a registry entry's [dependencies] property can hold at run
    time. *)
Inductive JsValue : Type :=
| JsUndefined
| JsNull
| JsBoolean (b : bool)
| JsNumber (n : Z)
| JsNaN
| JsString (s : string)
| JsArray (items : list string).

(** ToBoolean: [undefined], [null], [false], [0], [NaN] and the empty string
    are falsy; everything else, every array included, is truthy. *)
Definition truthy (v : JsValue) : bool :=
  match v with
  | JsUndefined => false
  | JsNull => false
  | JsBoolean b => b
  | JsNumber n => negb (n =? 0)%Z
  | JsNaN => false
  | JsString s => negb (s =? "")
  | JsArray _ => true
  end.

(** [a || b]. *)
Definition js_or (a b : JsValue) : JsValue :=
  if truthy a then a else b.

(** Modelled from the spec: the declaration of [ComponentMetadata]
    (src/types/component.ts) and the registry itself are not among the
    sources.  The fields are the ones [seed.ts] reads and the README lists in
    a registry entry; [dependencies = None] is an entry without the
    property. *)
Module ComponentMetadata.
Record t : Type := mk {
  id : string;
  name : string;
  description : string;
  category : string;
  tags : list string;
  filePath : string;
  componentPath : string;
  code : string;
  dependencies : option JsValue;
  responsive : bool;
  darkMode : bool;
  createdAt : string;
  updatedAt : string
}.

(** Reading [comp.dependencies]: a missing property reads as [undefined]. *)
Definition get_dependencies (comp : t) : JsValue :=
  match dependencies comp with
  | Some v => v
  | None => JsUndefined
  end.
End ComponentMetadata.

(** ** The Prisma client, as far as the seed script uses it *)

(** The [data] argument of [prisma.component.create].  A field that the
    caller leaves out is [None]. *)
Module ComponentCreateInput.
Record t : Type := mk {
  id : string;
  name : string;
  description : string;
  category : string;
  tags : list string;
  filePath : string;
  componentPath : string;
  code : string;
  dependencies : JsValue;
  responsive : bool;
  darkMode : bool;
  views : option Z;
  copies : option Z;
  createdAt : option Timestamp;
  updatedAt : option Timestamp
}.
End ComponentCreateInput.

Definition or_default {A : Type} (o : option A) (d : A) : A :=
  match o with
  | Some a => a
  | None => d
  end.

(** The client validates a [String[]] argument before it sends anything:
    an array is stored, [undefined] is an omitted field (the column has no
    default, so it stays [NULL]), any other value is refused. *)
Definition validate_string_list (argument : string) (v : JsValue)
  : Result (option (list string)) :=
  match v with
  | JsArray items => Ok (Some items)
  | JsUndefined => Ok None
  | _ => Err (ValidationError argument)
  end.

(** The row that [create] inserts: omitted fields take the column defaults
    of the migration ([views] and [copies] 0, [createdAt]
    [CURRENT_TIMESTAMP]) and [updatedAt] the time of the write. *)
Definition component_row (now : Timestamp) (data : ComponentCreateInput.t)
  (deps : option (list string)) : Component.t :=
  Component.mk
    (ComponentCreateInput.id data)
    (ComponentCreateInput.name data)
    (ComponentCreateInput.description data)
    (ComponentCreateInput.category data)
    (Some (ComponentCreateInput.tags data))
    (ComponentCreateInput.filePath data)
    (ComponentCreateInput.componentPath data)
    (ComponentCreateInput.code data)
    deps
    (ComponentCreateInput.responsive data)
    (ComponentCreateInput.darkMode data)
    (or_default (ComponentCreateInput.views data) 0%Z)
    (or_default (ComponentCreateInput.copies data) 0%Z)
    (or_default (ComponentCreateInput.createdAt data) now)
    (or_default (ComponentCreateInput.updatedAt data) now).

(** [prisma.component.create({ data })]. *)
Definition component_create (data : ComponentCreateInput.t) (now : Timestamp)
  (db : Database) : Result Database :=
  match validate_string_list "dependencies"
          (ComponentCreateInput.dependencies data) with
  | Err e => Err e
  | Ok deps => insert_component (component_row now data deps) db
  end.

(** [prisma.component.deleteMany({})]: the empty filter matches every row. *)
Definition component_deleteMany (now : Timestamp) (db : Database)
  : Result Database :=
  execute DeleteAllComponents db.

(** ** The Node process that runs the script *)

Inductive Message : Type :=
| StartingSeed
| ClearedExisting
| Added (name : string)
| SuccessfullySeeded (count : nat).

Inductive Event : Type :=
| ConsoleLog (m : Message)
| ConsoleError (e : Error)
| DeleteManyRequest
| CreateRequest (data : ComponentCreateInput.t)
| Disconnect.

(** What the script does not control: whether the [k]-th request to the
    database fails on the way (server down, connection lost), and the time
    at which it is served. *)
Record World : Type := mkWorld {
  fault : nat -> bool;
  clock : nat -> Timestamp
}.

Record Process : Type := mkProcess {
  db : Database;
  requests : nat;
  events : list Event
}.

(** How an asynchronous computation ends: its promise is fulfilled, its
    promise is rejected, or the process was terminated under it. *)
Inductive Completion (A : Type) : Type :=
| Fulfilled (a : A)
| Rejected (e : Error)
| Exited (code : Z).
Arguments Fulfilled {A} a.
Arguments Rejected {A} e.
Arguments Exited {A} code.

Definition Proc (A : Type) : Type :=
  World -> Process -> Completion A * Process.

Definition ret {A : Type} (a : A) : Proc A :=
  fun _ p => (Fulfilled a, p).

(** [await c; k]: a rejection propagates (nothing in [main] catches), and
    nothing runs in a terminated process. *)
Definition bind {A B : Type} (c : Proc A) (k : A -> Proc B) : Proc B :=
  fun w p =>
    match c w p with
    | (Fulfilled a, p') => k a w p'
    | (Rejected e, p') => (Rejected e, p')
    | (Exited code, p') => (Exited code, p')
    end.

Declare Scope proc_scope.
Delimit Scope proc_scope with proc.
Notation "x <- c ;; k" := (bind c (fun x => k))
  (at level 61, c at next level, right associativity) : proc_scope.
Notation "c ;; k" := (bind c (fun _ => k))
  (at level 61, right associativity) : proc_scope.
Local Open Scope proc_scope.

Definition emit (ev : Event) : Proc unit :=
  fun _ p => (Fulfilled tt, mkProcess (db p) (requests p) (events p ++ [ev])).

Definition console_log (m : Message) : Proc unit := emit (ConsoleLog m).

Definition console_error (e : Error) : Proc unit := emit (ConsoleError e).

(** [process.exit(code)] ends the process synchronously: no promise
    callback runs after it. *)
Definition process_exit {A : Type} (code : Z) : Proc A :=
  fun _ p => (Exited code, p).

(** One awaited request to the database. *)
Definition request (ev : Event)
  (stmt : Timestamp -> Database -> Result Database) : Proc unit :=
  fun w p =>
    let k := requests p in
    let events' := events p ++ [ev] in
    if fault w k then (Rejected ConnectionError, mkProcess (db p) (S k) events')
    else
      match stmt (clock w k) (db p) with
      | Ok db' => (Fulfilled tt, mkProcess db' (S k) events')
      | Err e => (Rejected e, mkProcess (db p) (S k) events')
      end.

(** [promise.catch(handler)]. *)
Definition catch {A : Type} (c : Proc A) (handler : Error -> Proc A) : Proc A :=
  fun w p =>
    match c w p with
    | (Rejected e, p') => handler e w p'
    | settled => settled
    end.

(** [promise.finally(callback)]: the callback runs once the promise is
    settled either way, and the settlement passes through unless the
    callback itself fails. *)
Definition finally {A : Type} (c : Proc A) (callback : Proc unit) : Proc A :=
  fun w p =>
    match c w p with
    | (Exited code, p') => (Exited code, p')
    | (settled, p') =>
        match callback w p' with
        | (Fulfilled _, p'') => (settled, p'')
        | (Rejected e, p'') => (Rejected e, p'')
        | (Exited code, p'') => (Exited code, p'')
        end
    end.

(** [for (const x of l) { body }]. *)
Fixpoint for_of {A : Type} (l : list A) (body : A -> Proc unit) : Proc unit :=
  match l with
  | [] => ret tt
  | x :: rest => body x ;; for_of rest body
  end.

(** [prisma.$disconnect()]. *)
Definition prisma_disconnect : Proc unit := emit Disconnect.

(** ** prisma/seed.ts *)

(** The object literal passed to [create] (seed.ts, lines 18 to 30). *)
Definition create_data (comp : ComponentMetadata.t) : ComponentCreateInput.t :=
  ComponentCreateInput.mk
    (ComponentMetadata.id comp)
    (ComponentMetadata.name comp)
    (ComponentMetadata.description comp)
    (ComponentMetadata.category comp)
    (ComponentMetadata.tags comp)
    (ComponentMetadata.filePath comp)
    (ComponentMetadata.componentPath comp)
    (ComponentMetadata.code comp)
    (js_or (ComponentMetadata.get_dependencies comp) (JsArray []))
    (ComponentMetadata.responsive comp)
    (ComponentMetadata.darkMode comp)
    None None None None.

Definition seed_component (comp : ComponentMetadata.t) : Proc unit :=
  request (CreateRequest (create_data comp)) (component_create (create_data comp)) ;;
  console_log (Added (ComponentMetadata.name comp)).

Definition main (componentRegistry : list ComponentMetadata.t) : Proc unit :=
  console_log StartingSeed ;;
  request DeleteManyRequest component_deleteMany ;;
  console_log ClearedExisting ;;
  for_of componentRegistry seed_component ;;
  console_log (SuccessfullySeeded (length componentRegistry)).

(** [main().catch(...).finally(...)] (seed.ts, lines 38 to 45). *)
Definition seed_script (componentRegistry : list ComponentMetadata.t)
  : Proc unit :=
  finally
    (catch (main componentRegistry)
           (fun e => console_error e ;; process_exit 1%Z))
    prisma_disconnect.

Definition boot (db0 : Database) : Process := mkProcess db0 0 [].

(** One run of [npm run prisma:seed] against the database [db0]. *)
Definition run_seed (componentRegistry : list ComponentMetadata.t)
  (w : World) (db0 : Database) : Completion unit * Process :=
  seed_script componentRegistry w (boot db0).

(** The status the process ends with: 0 when the event loop drains, the
    argument of [process.exit] otherwise. *)
Definition exit_status (c : Completion unit) : Z :=
  match c with
  | Fulfilled _ => 0%Z
  | Rejected _ => 1%Z
  | Exited code => code
  end.

(** ** src/lib/prisma.ts *)

Module Singleton.

(** A client instance is identified by its allocation number. *)
Definition PrismaClient := nat.

(** What outlives a module evaluation: the [prisma] property of
    [globalThis] and the number of clients constructed so far. *)
Record Runtime : Type := mkRuntime {
  globalForPrisma : option PrismaClient;
  constructed : nat
}.

(** [process.env.NODE_ENV !== 'production']; an unset variable is
    [undefined]. *)
Definition not_production (node_env : option string) : bool :=
  match node_env with
  | Some v => negb (v =? "production")
  | None => true
  end.

(** One evaluation of the module: the exported [prisma] and the runtime it
    leaves behind. *)
Definition evaluate (node_env : option string) (rt : Runtime)
  : PrismaClient * Runtime :=
  let (prisma, rt1) :=
    match globalForPrisma rt with
    | Some client => (client, rt)
    | None => (constructed rt,
               mkRuntime (globalForPrisma rt) (S (constructed rt)))
    end in
  if not_production node_env
  then (prisma, mkRuntime (Some prisma) (constructed rt1))
  else (prisma, rt1).

(** The module evaluated [n] times in a row (first load, then reloads):
    the exported clients in order, and the final runtime. *)
Fixpoint reload (node_env : option string) (n : nat) (rt : Runtime)
  : list PrismaClient * Runtime :=
  match n with
  | O => ([], rt)
  | S n' =>
      let (client, rt1) := evaluate node_env rt in
      let (clients, rt2) := reload node_env n' rt1 in
      (client :: clients, rt2)
  end.

End Singleton.

(** ** Observations on a run *)

Definition is_request (ev : Event) : bool :=
  match ev with
  | DeleteManyRequest => true
  | CreateRequest _ => true
  | _ => false
  end.

(** The requests the run sent to the database, in order. *)
Definition database_requests (evs : list Event) : list Event :=
  filter is_request evs.

Definition is_create (ev : Event) : bool :=
  match ev with
  | CreateRequest _ => true
  | _ => false
  end.

(** How many times the run called [prisma.component.create]. *)
Definition creates_issued (p : Process) : nat :=
  length (filter is_create (events p)).

(** The events that [main] itself can cause: console output and requests;
    the error report and the disconnect belong to the two callbacks. *)
Definition from_main (ev : Event) : bool :=
  match ev with
  | ConsoleLog _ => true
  | DeleteManyRequest => true
  | CreateRequest _ => true
  | ConsoleError _ => false
  | Disconnect => false
  end.

(** The request that [seed.ts] sends for a registry entry. *)
Definition create_request (comp : ComponentMetadata.t) : Event :=
  CreateRequest (create_data comp).

(** The row carries the entry's id, name, description, category, tags,
    filePath, componentPath, code, responsive and darkMode. *)
Definition carries (comp : ComponentMetadata.t) (row : Component.t) : Prop :=
  Component.id row = ComponentMetadata.id comp /\
  Component.name row = ComponentMetadata.name comp /\
  Component.description row = ComponentMetadata.description comp /\
  Component.category row = ComponentMetadata.category comp /\
  Component.tags row = Some (ComponentMetadata.tags comp) /\
  Component.filePath row = ComponentMetadata.filePath comp /\
  Component.componentPath row = ComponentMetadata.componentPath comp /\
  Component.code row = ComponentMetadata.code comp /\
  Component.responsive row = ComponentMetadata.responsive comp /\
  Component.darkMode row = ComponentMetadata.darkMode comp.

(** The row is the one a successful [create] for the entry inserts, at some
    time of service. *)
Definition inserted_for (comp : ComponentMetadata.t) (row : Component.t)
  : Prop :=
  exists (now : Timestamp) (deps : option (list string)),
    validate_string_list "dependencies"
      (ComponentCreateInput.dependencies (create_data comp)) = Ok deps /\
    row = component_row now (create_data comp) deps.

(** A row without its two server-assigned timestamps. *)
Definition untimed (row : Component.t) : Component.t :=
  Component.mk (Component.id row) (Component.name row)
    (Component.description row) (Component.category row) (Component.tags row)
    (Component.filePath row) (Component.componentPath row)
    (Component.code row) (Component.dependencies row)
    (Component.responsive row) (Component.darkMode row)
    (Component.views row) (Component.copies row) 0%Z 0%Z.

(** What the run printed with [console.log], in order. *)
Definition console_output (evs : list Event) : list Message :=
  flat_map (fun ev => match ev with ConsoleLog m => [m] | _ => [] end) evs.

(** ** Concrete inputs used by the examples below *)

Definition glow_button : ComponentMetadata.t :=
  ComponentMetadata.mk "glow-button-1" "Glow Button"
    "Button with animated glow effect" "button"
    ["button"; "glow"; "animation"]
    "/components/demo/buttons/GlowButton.tsx"
    "@/components/demo/buttons/GlowButton"
    "export default function GlowButton() {}"
    None true true "2025-01-01T00:00:00.000Z" "2025-01-01T00:00:00.000Z".

Definition glass_navbar : ComponentMetadata.t :=
  ComponentMetadata.mk "glass-navbar-1" "Glassmorphism Navbar"
    "Navbar with a frosted glass look" "navbar"
    ["glassmorphism"; "modern"]
    "/components/demo/navbars/GlassNavbar.tsx"
    "@/components/demo/navbars/GlassNavbar"
    "export default function GlassNavbar() {}"
    (Some (JsArray ["lucide-react"])) true false
    "2025-01-01T00:00:00.000Z" "2025-01-01T00:00:00.000Z".

Definition sample_registry : list ComponentMetadata.t :=
  [glow_button; glass_navbar].

(** A registry whose last entry repeats the id of the first. *)
Definition clashing_registry : list ComponentMetadata.t :=
  [glow_button; glass_navbar; glow_button].

Definition old_card : Component.t :=
  Component.mk "old-card-1" "Old Card" "A card from an earlier seed" "card"
    (Some ["card"]) "/components/demo/cards/OldCard.tsx"
    "@/components/demo/cards/OldCard" "export default function OldCard() {}"
    (Some []) true true 7%Z 2%Z 100%Z 100%Z.

Definition alice : User.t :=
  User.mk "user-1" "alice@example.com" (Some "Alice") "user" 50%Z 50%Z.

Definition alice_likes_old_card : Favorite.t :=
  Favorite.mk "fav-1" "user-1" "old-card-1" 150%Z.

Definition old_card_v1 : ComponentVersion.t :=
  ComponentVersion.mk "ver-1" "old-card-1" "1.0.0"
    "export default function OldCard() {}" None 120%Z.

(** A database in use: one component with a favorite and a version, and
    one user. *)
Definition used_database : Database :=
  mkDatabase [old_card] [alice_likes_old_card] [old_card_v1] [alice].

(** No request fails; the [k]-th request is served at time [start + k]. *)
Definition calm (start : Timestamp) : World :=
  mkWorld (fun _ => false) (fun k => (start + Z.of_nat k)%Z).

(** The [n]-th request of the run is lost. *)
Definition failing_at (n : nat) (start : Timestamp) : World :=
  mkWorld (fun k => Nat.eqb k n) (fun k => (start + Z.of_nat k)%Z).

(** The row that seeding [glow_button] at time 1001 inserts. *)
Definition glow_row_sample : Component.t :=
  component_row 1001%Z (create_data glow_button) (Some []).

(** A first seed of the database in use, and a second one four seconds
    later. *)
Definition first_run : Completion unit * Process :=
  run_seed sample_registry (calm 1000%Z) used_database.

Definition second_run : Completion unit * Process :=
  run_seed sample_registry (calm 5000%Z) (db (snd first_run)).

(** ** What the constraints of the migration guarantee *)

(** Primary keys, unique indexes and foreign keys, as properties of a
    database state. *)
Record consistent (d : Database) : Prop := mkConsistent {
  Component_pkey : NoDup (map Component.id (components d));
  Favorite_pkey : NoDup (map Favorite.id (favorites d));
  Favorite_userId_componentId_key : NoDup (map Favorite.key (favorites d));
  ComponentVersion_pkey : NoDup (map ComponentVersion.id (versions d));
  User_pkey : NoDup (map User.id (users d));
  User_email_key : NoDup (map User.email (users d));
  Favorite_componentId_fkey :
    Forall (fun f => In (Favorite.componentId f)
                        (map Component.id (components d)))
           (favorites d);
  ComponentVersion_componentId_fkey :
    Forall (fun v => In (ComponentVersion.componentId v)
                        (map Component.id (components d)))
           (versions d)
}.

(** * Facts about lists of rows *)

Lemma mem_true_iff (x : string) (l : list string) :
  mem x l = true <-> In x l.
Proof.
  unfold mem. rewrite existsb_exists. split.
  - intros [y [Hy Heq]]. apply String.eqb_eq in Heq. now subst.
  - intros H. exists x. split; [assumption | apply String.eqb_refl].
Qed.

Lemma mem_false_iff (x : string) (l : list string) :
  mem x l = false <-> ~ In x l.
Proof.
  rewrite <- mem_true_iff. destruct (mem x l); split; congruence.
Qed.

Lemma key_eqb_eq (k1 k2 : string * string) :
  key_eqb k1 k2 = true <-> k1 = k2.
Proof.
  destruct k1 as [a b], k2 as [c d]. unfold key_eqb. simpl.
  rewrite andb_true_iff, !String.eqb_eq. split.
  - intros [-> ->]. reflexivity.
  - intros H. inversion H. auto.
Qed.

Lemma has_favorite_key_true_iff (k : string * string) (l : list Favorite.t) :
  has_favorite_key k l = true <-> In k (map Favorite.key l).
Proof.
  unfold has_favorite_key. rewrite existsb_exists, in_map_iff.
  split; intros [g [H1 H2]]; exists g.
  - apply key_eqb_eq in H2. auto.
  - split; [assumption | now apply key_eqb_eq].
Qed.

Lemma has_favorite_key_false_iff (k : string * string) (l : list Favorite.t) :
  has_favorite_key k l = false <-> ~ In k (map Favorite.key l).
Proof.
  rewrite <- has_favorite_key_true_iff.
  destruct (has_favorite_key k l); split; congruence.
Qed.

Section Rows.
Context {A K : Type}.
Variable key : A -> K.

Lemma in_map_filter (p : A -> bool) (l : list A) (k : K) :
  In k (map key (filter p l)) -> In k (map key l).
Proof.
  rewrite !in_map_iff. intros [a [Hk Ha]].
  apply filter_In in Ha. exists a. tauto.
Qed.

Lemma NoDup_map_filter (p : A -> bool) (l : list A) :
  NoDup (map key l) -> NoDup (map key (filter p l)).
Proof.
  induction l as [|a l IH]; simpl; intros H; [constructor|].
  inversion H as [|? ? Hnotin Hrest]; subst.
  destruct (p a); simpl; auto.
  constructor; auto.
  intros Hin. apply Hnotin. eapply in_map_filter; eassumption.
Qed.

Lemma NoDup_map_snoc (l : list A) (a : A) :
  NoDup (map key l) -> ~ In (key a) (map key l) ->
  NoDup (map key (l ++ [a])).
Proof.
  intros Hl Ha. rewrite map_app. simpl.
  apply NoDup_app; [assumption | repeat constructor; simpl; tauto |].
  intros k Hk [<-|[]]. contradiction.
Qed.

(** Renaming keys keeps them distinct when the renaming is injective on the
    keys that occur. *)
Lemma NoDup_map_rename (h : A -> A) (l : list A) :
  (forall a b, In a l -> In b l -> key (h a) = key (h b) -> key a = key b) ->
  NoDup (map key l) -> NoDup (map key (map h l)).
Proof.
  induction l as [|a l IH]; simpl; intros Hinj H; [constructor|].
  inversion H as [|? ? Hnotin Hrest]; subst.
  constructor.
  - rewrite map_map, in_map_iff. intros [b [Hb Hin]].
    apply Hnotin. rewrite in_map_iff. exists b. split; [|assumption].
    symmetry. apply Hinj; auto.
  - apply IH; auto.
Qed.

End Rows.

Section Replace.
Context {A K : Type}.
Variable id : A -> string.
Variable key : A -> K.

Lemma replace_row_absent (target : string) (row : A) (l : list A) :
  ~ In target (map id l) -> replace_row id target row l = l.
Proof.
  induction l as [|a l IH]; simpl; intros H; [reflexivity|].
  destruct (String.eqb_spec (id a) target) as [E|E]; [tauto|].
  f_equal. apply IH. tauto.
Qed.

Lemma in_replace_row (target : string) (row : A) (l : list A) (k : K) :
  In k (map key (replace_row id target row l)) ->
  k = key row \/
  In k (map key (filter (fun a => negb (id a =? target)) l)).
Proof.
  induction l as [|a l IH]; simpl; [tauto|].
  destruct (String.eqb_spec (id a) target) as [E|E]; simpl.
  - intros [H|H]; auto.
  - intros [H|H]; auto. destruct (IH H); auto.
Qed.

Lemma NoDup_replace_row (target : string) (row : A) (l : list A) :
  NoDup (map id l) -> NoDup (map key l) ->
  ~ In (key row) (map key (filter (fun a => negb (id a =? target)) l)) ->
  NoDup (map key (replace_row id target row l)).
Proof.
  induction l as [|a l IH]; simpl; intros Hid Hkey Hrow; [constructor|].
  inversion Hid as [|? ? Hid1 Hid2]; subst.
  inversion Hkey as [|? ? Hkey1 Hkey2]; subst.
  destruct (String.eqb_spec (id a) target) as [E|E]; simpl in Hrow.
  - subst target. rewrite (replace_row_absent _ _ _ Hid1).
    constructor; [|assumption].
    intros Hin. apply Hrow. clear - Hin Hid1.
    induction l as [|b l IH]; simpl in *; [assumption|].
    destruct (String.eqb_spec (id b) (id a)) as [E|E]; [intuition congruence|].
    simpl. destruct Hin as [H|H]; [auto|]. right. apply IH; tauto.
  - constructor.
    + intros Hin. apply in_replace_row in Hin. destruct Hin as [H|H].
      * apply Hrow. left. congruence.
      * apply Hkey1. eapply in_map_filter; eassumption.
    + apply IH; tauto.
Qed.

End Replace.

(** * Every statement preserves the constraints *)

Lemma in_ids_snoc (row : Component.t) (l : list Component.t) (x : string) :
  In x (map Component.id l) -> In x (map Component.id (l ++ [row])).
Proof. rewrite map_app, in_app_iff. auto. Qed.

Lemma insert_component_consistent row d d' :
  consistent d -> insert_component row d = Ok d' -> consistent d'.
Proof.
  intros [] H. unfold insert_component, has_component in H.
  destruct (mem _ _) eqn:Hmem; inversion H; subst; clear H.
  apply mem_false_iff in Hmem.
  constructor; simpl; auto.
  - now apply NoDup_map_snoc.
  - eapply Forall_impl; [|eassumption]. intros f. apply in_ids_snoc.
  - eapply Forall_impl; [|eassumption]. intros v. apply in_ids_snoc.
Qed.

(** A reference that survives a delete points at a surviving component. *)
Lemma surviving_reference (p : Component.t -> bool) (l : list Component.t)
  (x : string) :
  In x (map Component.id l) ->
  mem x (map Component.id (filter p l)) = false ->
  In x (map Component.id (filter (fun c => negb (p c)) l)).
Proof.
  rewrite mem_false_iff, !in_map_iff. intros [c [Hc Hin]] Hgone.
  exists c. split; [assumption|]. apply filter_In. split; [assumption|].
  destruct (p c) eqn:Hp; [|reflexivity].
  exfalso. apply Hgone. exists c. split; [assumption|].
  apply filter_In. auto.
Qed.

Lemma delete_components_where_consistent p d :
  consistent d -> consistent (delete_components_where p d).
Proof.
  intros []. constructor; simpl; auto using NoDup_map_filter.
  - rewrite Forall_forall in *. intros f Hf.
    apply filter_In in Hf. destruct Hf as [Hf Hkeep].
    apply negb_true_iff in Hkeep. apply surviving_reference; auto.
  - rewrite Forall_forall in *. intros v Hv.
    apply filter_In in Hv. destruct Hv as [Hv Hkeep].
    apply negb_true_iff in Hkeep. apply surviving_reference; auto.
Qed.

Lemma in_ids_replace_row cid row (l : list Component.t) (x : string) :
  In cid (map Component.id l) -> In x (map Component.id l) ->
  In (if x =? cid then Component.id row else x)
     (map Component.id (replace_row Component.id cid row l)).
Proof.
  unfold replace_row. rewrite !in_map_iff.
  intros [c [Hc Hcin]] [c' [Hc' Hc'in]].
  destruct (String.eqb_spec x cid) as [E|E].
  - exists row. split; [reflexivity|]. apply in_map_iff. exists c.
    split; [|assumption]. rewrite Hc, String.eqb_refl. reflexivity.
  - exists c'. split; [assumption|]. apply in_map_iff. exists c'.
    split; [|assumption]. subst x.
    destruct (String.eqb_spec (Component.id c') cid); tauto.
Qed.

Lemma update_component_consistent cid row d d' :
  consistent d -> update_component cid row d = Ok d' -> consistent d'.
Proof.
  intros Hd H. unfold update_component, has_component in H.
  destruct (mem cid _) eqn:Hcid; simpl in H; [|inversion H; now subst].
  apply mem_true_iff in Hcid.
  destruct (negb (Component.id row =? cid) && mem (Component.id row) _)
    eqn:Hclash; inversion H; subst; clear H.
  (* the new id is the old one, or it is not in use *)
  assert (Hfree : Component.id row = cid \/
                  ~ In (Component.id row) (map Component.id (components d))).
  { apply andb_false_iff in Hclash. destruct Hclash as [E|E].
    - left. apply negb_false_iff in E. now apply String.eqb_eq.
    - right. now apply mem_false_iff. }
  destruct Hd. constructor; simpl; auto.
  - apply NoDup_replace_row; auto.
    intros Hin. destruct Hfree as [E|E].
    + rewrite E in Hin. apply in_map_iff in Hin.
      destruct Hin as [c [Hc Hcin]]. apply filter_In in Hcin.
      destruct Hcin as [_ Hne]. rewrite Hc, String.eqb_refl in Hne.
      discriminate.
    + apply E. eapply in_map_filter; eassumption.
  - rewrite map_map. simpl. erewrite map_ext; [eassumption | reflexivity].
  - apply NoDup_map_rename; [|assumption].
    intros a b Ha Hb. unfold Favorite.key. simpl.
    rewrite Forall_forall in Favorite_componentId_fkey0.
    pose proof (Favorite_componentId_fkey0 a Ha) as Hfa.
    pose proof (Favorite_componentId_fkey0 b Hb) as Hfb.
    destruct (String.eqb_spec (Favorite.componentId a) cid) as [Ea|Ea];
      destruct (String.eqb_spec (Favorite.componentId b) cid) as [Eb|Eb];
      intros Heq; inversion Heq; try congruence;
      destruct Hfree as [E|E]; congruence.
  - rewrite map_map. simpl. erewrite map_ext; [eassumption | reflexivity].
  - rewrite Forall_forall in *. intros f Hf. apply in_map_iff in Hf.
    destruct Hf as [g [<- Hg]]. simpl. apply in_ids_replace_row; auto.
  - rewrite Forall_forall in *. intros v Hv. apply in_map_iff in Hv.
    destruct Hv as [u [<- Hu]]. simpl. apply in_ids_replace_row; auto.
Qed.

Lemma insert_favorite_consistent row d d' :
  consistent d -> insert_favorite row d = Ok d' -> consistent d'.
Proof.
  intros [] H. unfold insert_favorite, has_favorite, has_component in H.
  destruct (mem (Favorite.id row) _) eqn:Hid; [discriminate|].
  destruct (has_favorite_key _ _) eqn:Hkey; [discriminate|].
  destruct (mem (Favorite.componentId row) _) eqn:Hfk; simpl in H;
    inversion H; subst; clear H.
  apply mem_false_iff in Hid. apply has_favorite_key_false_iff in Hkey.
  apply mem_true_iff in Hfk.
  constructor; simpl; auto using NoDup_map_snoc.
  apply Forall_app. split; [assumption|]. repeat constructor. assumption.
Qed.

Lemma delete_favorite_consistent fid d :
  consistent d -> consistent (delete_favorite fid d).
Proof.
  intros []. constructor; simpl; auto using NoDup_map_filter.
  rewrite Forall_forall in *. intros f Hf. apply filter_In in Hf. intuition.
Qed.

Lemma update_favorite_consistent fid row d d' :
  consistent d -> update_favorite fid row d = Ok d' -> consistent d'.
Proof.
  intros Hd H. unfold update_favorite, has_favorite, has_component in H.
  destruct (mem fid _) eqn:Hfid; simpl in H; [|inversion H; now subst].
  destruct (mem (Favorite.id row) _) eqn:Hid; [discriminate|].
  destruct (has_favorite_key _ _) eqn:Hkey; [discriminate|].
  destruct (mem (Favorite.componentId row) _) eqn:Hfk; simpl in H;
    inversion H; subst; clear H.
  apply mem_false_iff in Hid. apply has_favorite_key_false_iff in Hkey.
  apply mem_true_iff in Hfk.
  destruct Hd. constructor; simpl; auto using NoDup_replace_row.
  rewrite Forall_forall in *. intros f Hf. unfold replace_row in Hf.
  apply in_map_iff in Hf. destruct Hf as [g [Hg Hgin]].
  destruct (Favorite.id g =? fid); subst; auto.
Qed.

Lemma insert_version_consistent row d d' :
  consistent d -> insert_version row d = Ok d' -> consistent d'.
Proof.
  intros [] H. unfold insert_version, has_version, has_component in H.
  destruct (mem (ComponentVersion.id row) _) eqn:Hid; [discriminate|].
  destruct (mem (ComponentVersion.componentId row) _) eqn:Hfk; simpl in H;
    inversion H; subst; clear H.
  apply mem_false_iff in Hid. apply mem_true_iff in Hfk.
  constructor; simpl; auto using NoDup_map_snoc.
  apply Forall_app. split; [assumption|]. repeat constructor. assumption.
Qed.

Lemma delete_version_consistent vid d :
  consistent d -> consistent (delete_version vid d).
Proof.
  intros []. constructor; simpl; auto using NoDup_map_filter.
  rewrite Forall_forall in *. intros v Hv. apply filter_In in Hv. intuition.
Qed.

Lemma insert_user_consistent row d d' :
  consistent d -> insert_user row d = Ok d' -> consistent d'.
Proof.
  intros [] H. unfold insert_user, has_user, has_email in H.
  destruct (mem (User.id row) _) eqn:Hid; [discriminate|].
  destruct (mem (User.email row) _) eqn:Hemail; inversion H; subst; clear H.
  apply mem_false_iff in Hid. apply mem_false_iff in Hemail.
  constructor; simpl; auto using NoDup_map_snoc.
Qed.

Lemma delete_user_consistent uid d :
  consistent d -> consistent (delete_user uid d).
Proof.
  intros []. constructor; simpl; auto using NoDup_map_filter.
Qed.

Lemma execute_consistent st d d' :
  consistent d -> execute st d = Ok d' -> consistent d'.
Proof.
  intros Hd H. destruct st; simpl in H;
    try (inversion H; subst; clear H);
    eauto using insert_component_consistent, update_component_consistent,
      insert_favorite_consistent, update_favorite_consistent,
      insert_version_consistent, insert_user_consistent,
      delete_components_where_consistent, delete_favorite_consistent,
      delete_version_consistent, delete_user_consistent.
Qed.

Lemma empty_database_consistent : consistent empty_database.
Proof. constructor; simpl; constructor. Qed.

(** The constraints hold in every state that statements can produce. *)
Lemma reachable_consistent d : reachable d -> consistent d.
Proof.
  induction 1 as [|st d d' _ IH Hexec].
  - apply empty_database_consistent.
  - eapply execute_consistent; eassumption.
Qed.

(** A failed statement leaves the database as it was, and an executed one
    stays within the reachable states. *)
Lemma apply_statement_reachable st d :
  reachable d -> reachable (apply_statement st d).
Proof.
  intros Hd. unfold apply_statement. destruct (execute st d) eqn:H.
  - eapply reachable_step; eassumption.
  - assumption.
Qed.

Lemma used_database_reachable : reachable used_database.
Proof.
  apply (reachable_step (InsertUser alice)
           (mkDatabase [old_card] [alice_likes_old_card] [old_card_v1] []));
    [|reflexivity].
  apply (reachable_step (InsertVersion old_card_v1)
           (mkDatabase [old_card] [alice_likes_old_card] [] []));
    [|reflexivity].
  apply (reachable_step (InsertFavorite alice_likes_old_card)
           (mkDatabase [old_card] [] [] [])); [|reflexivity].
  apply (reachable_step (InsertComponent old_card) empty_database);
    [|reflexivity].
  apply reachable_empty.
Qed.

(** * The schema's guarantees (claims C5 and C6) *)

(** C5. In every reachable database state the "Favorite" table holds at most
    one row per (userId, componentId) pair: its keys are pairwise distinct.
    Inserting a favorite whose pair is already present is refused, by the
    unique index [Favorite_userId_componentId_key] whenever the new row's
    id is free, and the database stays as it was. *)
Theorem favorite_unique_per_user_and_component (d : Database) :
  reachable d ->
  NoDup (map Favorite.key (favorites d)) /\
  forall row : Favorite.t,
    In (Favorite.key row) (map Favorite.key (favorites d)) ->
    (exists e, execute (InsertFavorite row) d = Err e) /\
    (has_favorite (Favorite.id row) d = false ->
     execute (InsertFavorite row) d =
       Err (UniqueConstraintViolation "Favorite_userId_componentId_key")) /\
    apply_statement (InsertFavorite row) d = d.
Proof.
  intros Hd. split.
  - apply reachable_consistent in Hd. now destruct Hd.
  - intros row Hdup. apply has_favorite_key_true_iff in Hdup.
    unfold apply_statement. simpl. unfold insert_favorite. rewrite Hdup.
    destruct (has_favorite (Favorite.id row) d); repeat split; eauto.
    discriminate.
Qed.

Lemma favorite_unique_per_user_and_component_witness :
  reachable used_database /\
  NoDup (map Favorite.key (favorites used_database)) /\
  execute (InsertFavorite (Favorite.mk "fav-2" "user-1" "old-card-1" 999%Z))
          used_database =
    Err (UniqueConstraintViolation "Favorite_userId_componentId_key") /\
  apply_statement
    (InsertFavorite (Favorite.mk "fav-2" "user-1" "old-card-1" 999%Z))
    used_database = used_database.
Proof.
  destruct (favorite_unique_per_user_and_component used_database
              used_database_reachable) as [Hkeys Hdup].
  destruct (Hdup (Favorite.mk "fav-2" "user-1" "old-card-1" 999%Z))
    as [_ [Hindex Hsame]].
  - simpl. left. reflexivity.
  - split; [exact used_database_reachable|].
    split; [exact Hkeys|].
    split; [apply Hindex; reflexivity | exact Hsame].
Defined.

(** C6. Deleting a row of "Component" removes the row and, through the two
    [ON DELETE CASCADE] foreign keys, every "Favorite" and every
    "ComponentVersion" whose componentId references it. *)
Theorem delete_component_cascades (cid : string) (d : Database) :
  has_component cid d = true ->
  execute (DeleteComponent cid) d = Ok (delete_component cid d) /\
  ~ In cid (map Component.id (components (delete_component cid d))) /\
  Forall (fun f => Favorite.componentId f <> cid)
         (favorites (delete_component cid d)) /\
  Forall (fun v => ComponentVersion.componentId v <> cid)
         (versions (delete_component cid d)).
Proof.
  intros Hcid. apply mem_true_iff in Hcid.
  assert (Hgone : In cid (map Component.id
            (filter (fun c => Component.id c =? cid) (components d)))).
  { apply in_map_iff in Hcid. destruct Hcid as [c [Hc Hin]].
    apply in_map_iff. exists c. split; [assumption|].
    apply filter_In. split; [assumption|]. now apply String.eqb_eq. }
  apply mem_true_iff in Hgone.
  split; [reflexivity|]. unfold delete_component, delete_components_where.
  simpl. repeat split.
  - rewrite in_map_iff. intros [c [Hc Hin]]. apply filter_In in Hin.
    destruct Hin as [_ Hne]. apply negb_true_iff in Hne.
    apply String.eqb_neq in Hne. contradiction.
  - apply Forall_forall. intros f Hf. apply filter_In in Hf.
    destruct Hf as [_ Hkeep]. apply negb_true_iff in Hkeep.
    intros E. rewrite E in Hkeep. congruence.
  - apply Forall_forall. intros v Hv. apply filter_In in Hv.
    destruct Hv as [_ Hkeep]. apply negb_true_iff in Hkeep.
    intros E. rewrite E in Hkeep. congruence.
Qed.

Lemma delete_component_cascades_witness :
  has_component "old-card-1" used_database = true /\
  components (delete_component "old-card-1" used_database) = [] /\
  Forall (fun f => Favorite.componentId f <> "old-card-1")
         (favorites (delete_component "old-card-1" used_database)) /\
  Forall (fun v => ComponentVersion.componentId v <> "old-card-1")
         (versions (delete_component "old-card-1" used_database)).
Proof.
  split; [reflexivity|]. split; [reflexivity|].
  apply (delete_component_cascades "old-card-1" used_database).
  reflexivity.
Defined.

(** * The seed script, step by step *)

Lemma component_create_ok data now d d' :
  component_create data now d = Ok d' ->
  exists deps,
    validate_string_list "dependencies"
      (ComponentCreateInput.dependencies data) = Ok deps /\
    has_component (ComponentCreateInput.id data) d = false /\
    d' = mkDatabase (components d ++ [component_row now data deps])
                    (favorites d) (versions d) (users d).
Proof.
  unfold component_create, insert_component. intros H.
  destruct (validate_string_list _ _) as [deps|e]; [|discriminate].
  simpl in H. destruct (has_component _ d) eqn:Hpk; inversion H.
  exists deps. auto.
Qed.

Lemma seed_component_run comp w p :
  seed_component comp w p =
  let sent := events p ++ [create_request comp] in
  if fault w (requests p)
  then (Rejected ConnectionError, mkProcess (db p) (S (requests p)) sent)
  else
    match component_create (create_data comp) (clock w (requests p)) (db p) with
    | Ok d' =>
        (Fulfilled tt,
         mkProcess d' (S (requests p))
           (sent ++ [ConsoleLog (Added (ComponentMetadata.name comp))]))
    | Err e => (Rejected e, mkProcess (db p) (S (requests p)) sent)
    end.
Proof.
  unfold seed_component, bind, request, console_log, emit, create_request.
  destruct (fault w (requests p)); [reflexivity|].
  destruct (component_create _ _ _); reflexivity.
Qed.

Lemma database_requests_app evs evs' :
  database_requests (evs ++ evs') =
  database_requests evs ++ database_requests evs'.
Proof. apply filter_app. Qed.

Lemma creates_app evs evs' :
  length (filter is_create (evs ++ evs')) =
  length (filter is_create evs) + length (filter is_create evs').
Proof. rewrite filter_app. apply length_app. Qed.

(** The loop of [main]: it appends one row per entry, in registry order,
    until the registry is exhausted or a [create] is rejected; it touches
    no other table and never ends the process. *)
Lemma seed_loop registry : forall w p c p',
  for_of registry seed_component w p = (c, p') ->
  exists rows issued,
    components (db p') = components (db p) ++ rows /\
    favorites (db p') = favorites (db p) /\
    versions (db p') = versions (db p) /\
    users (db p') = users (db p) /\
    Forall2 inserted_for (firstn (length rows) registry) rows /\
    database_requests (events p') =
      database_requests (events p) ++ map create_request (firstn issued registry) /\
    creates_issued p' = creates_issued p + issued /\
    (NoDup (map Component.id (components (db p))) ->
     NoDup (map Component.id (components (db p')))) /\
    match c with
    | Fulfilled _ => length rows = length registry /\ issued = length registry
    | Rejected _ => issued = S (length rows) /\ issued <= length registry
    | Exited _ => False
    end.
Proof.
  induction registry as [|comp registry IH]; intros w p c p' Hrun.
  - inversion Hrun; subst. exists [], 0. simpl.
    rewrite !app_nil_r, Nat.add_0_r. repeat split; auto.
  - simpl in Hrun. unfold bind in Hrun at 1.
    rewrite seed_component_run in Hrun. simpl in Hrun.
    destruct (fault w (requests p)).
    { inversion Hrun; subst; clear Hrun. exists [], 1. simpl.
      unfold creates_issued. simpl.
      rewrite database_requests_app, creates_app, !app_nil_r. simpl.
      repeat split; auto. lia. }
    destruct (component_create _ _ _) as [d'|e] eqn:Hcreate.
    + apply component_create_ok in Hcreate.
      destruct Hcreate as [deps [Hdeps [Hpk ->]]].
      apply IH in Hrun.
      destruct Hrun as [rows [issued
        [Hc [Hf [Hv [Hu [Hrows [Hreq [Hcount [Hnodup Hend]]]]]]]]]].
      simpl in *.
      exists (component_row (clock w (requests p)) (create_data comp) deps
                :: rows), (S issued).
      simpl. rewrite Hc, <- app_assoc. simpl.
      repeat split; auto.
      * constructor; [|assumption]. exists (clock w (requests p)), deps. auto.
      * rewrite Hreq, !database_requests_app, <- !app_assoc. reflexivity.
      * unfold creates_issued in *. simpl in *. rewrite Hcount, !creates_app.
        simpl. lia.
      * intros Hd. rewrite Hc, <- app_assoc in Hnodup. apply Hnodup.
        apply NoDup_map_snoc; [assumption|].
        unfold has_component in Hpk. now apply mem_false_iff in Hpk.
      * destruct c; intuition lia.
    + inversion Hrun; subst; clear Hrun. exists [], 1. simpl.
      unfold creates_issued. simpl.
      rewrite database_requests_app, creates_app, !app_nil_r. simpl.
      repeat split; auto. lia.
Qed.

Lemma filter_everything {A : Type} (l : list A) :
  filter (fun _ => true) l = l.
Proof. induction l; simpl; congruence. Qed.

Lemma filter_nothing {A : Type} (l : list A) :
  filter (fun _ => negb true) l = [].
Proof. induction l; simpl; auto. Qed.

Lemma referencing_rows_deleted {A : Type} (ref : A -> string)
  (ids : list string) (l : list A) :
  Forall (fun a => In (ref a) ids) l ->
  filter (fun a => negb (mem (ref a) ids)) l = [].
Proof.
  induction 1 as [|a l Ha _ IH]; simpl; [reflexivity|].
  apply mem_true_iff in Ha. rewrite Ha. simpl. exact IH.
Qed.

(** [deleteMany({})] empties "Component" and leaves "User" alone; where the
    foreign keys hold, the cascade empties "Favorite" and
    "ComponentVersion" as well. *)
Lemma delete_all_components d :
  components (delete_components_where (fun _ => true) d) = [] /\
  users (delete_components_where (fun _ => true) d) = users d /\
  (consistent d ->
   favorites (delete_components_where (fun _ => true) d) = [] /\
   versions (delete_components_where (fun _ => true) d) = []).
Proof.
  unfold delete_components_where. simpl.
  rewrite filter_nothing, filter_everything.
  repeat split; auto; destruct H; now apply referencing_rows_deleted.
Qed.

Lemma main_run registry w p :
  main registry w p =
  let started := (events p ++ [ConsoleLog StartingSeed]) ++ [DeleteManyRequest] in
  if fault w (requests p)
  then (Rejected ConnectionError, mkProcess (db p) (S (requests p)) started)
  else
    match for_of registry seed_component w
            (mkProcess (delete_components_where (fun _ => true) (db p))
                       (S (requests p))
                       (started ++ [ConsoleLog ClearedExisting])) with
    | (Fulfilled _, p') =>
        (Fulfilled tt,
         mkProcess (db p') (requests p')
           (events p' ++ [ConsoleLog (SuccessfullySeeded (length registry))]))
    | (Rejected e, p') => (Rejected e, p')
    | (Exited code, p') => (Exited code, p')
    end.
Proof.
  unfold main, bind, request, console_log, emit. simpl.
  destruct (fault w (requests p)); [reflexivity|].
  destruct (for_of registry seed_component w _) as [[[]|e|code] p'];
    reflexivity.
Qed.

(** The promise chain around [main]: a fulfilled [main] is followed by the
    [finally] callback; a rejected [main] is followed by the [catch]
    callback, which logs and ends the process. *)
Lemma seed_script_run registry w p :
  seed_script registry w p =
  match main registry w p with
  | (Fulfilled _, p') =>
      (Fulfilled tt,
       mkProcess (db p') (requests p') (events p' ++ [Disconnect]))
  | (Rejected e, p') =>
      (Exited 1%Z,
       mkProcess (db p') (requests p') (events p' ++ [ConsoleError e]))
  | (Exited code, p') => (Exited code, p')
  end.
Proof.
  unfold seed_script, finally, catch, bind, console_error, process_exit,
    prisma_disconnect, emit.
  destruct (main registry w p) as [[[]|e|code] p']; reflexivity.
Qed.

Lemma seed_loop_events registry : forall w p c p',
  for_of registry seed_component w p = (c, p') ->
  exists evs, events p' = events p ++ evs /\ forallb from_main evs = true.
Proof.
  induction registry as [|comp registry IH]; intros w p c p' Hrun.
  - inversion Hrun; subst. exists []. rewrite app_nil_r. auto.
  - simpl in Hrun. unfold bind in Hrun at 1.
    rewrite seed_component_run in Hrun. simpl in Hrun.
    destruct (fault w (requests p)).
    { inversion Hrun; subst. exists [create_request comp]. auto. }
    destruct (component_create _ _ _) as [d'|e].
    + apply IH in Hrun. destruct Hrun as [evs [Hevs Hmain]]. simpl in Hevs.
      exists (create_request comp
                :: ConsoleLog (Added (ComponentMetadata.name comp)) :: evs).
      rewrite Hevs, <- !app_assoc. auto.
    + inversion Hrun; subst. exists [create_request comp]. auto.
Qed.

(** Everything a run of the script can end in. *)
Lemma run_seed_cases registry w db0 c p :
  run_seed registry w db0 = (c, p) ->
  users (db p) = users db0 /\
  ((fault w 0 = true /\ c = Exited 1%Z /\ db p = db0 /\ creates_issued p = 0)
   \/
   (fault w 0 = false /\
    favorites (db p) =
      favorites (delete_components_where (fun _ => true) db0) /\
    versions (db p) =
      versions (delete_components_where (fun _ => true) db0) /\
    Forall2 inserted_for
      (firstn (length (components (db p))) registry) (components (db p)) /\
    NoDup (map Component.id (components (db p))) /\
    database_requests (events p) =
      DeleteManyRequest
        :: map create_request (firstn (creates_issued p) registry) /\
    ((c = Fulfilled tt /\
      length (components (db p)) = length registry /\
      creates_issued p = length registry)
     \/
     (c = Exited 1%Z /\
      creates_issued p = S (length (components (db p))) /\
      creates_issued p <= length registry)))).
Proof.
  unfold run_seed. rewrite seed_script_run, main_run. simpl.
  destruct (fault w 0).
  { intros H. inversion H; subst. simpl. split; [reflexivity|]. left. auto. }
  destruct (for_of registry seed_component w _) as [c' p'] eqn:Hloop.
  apply seed_loop in Hloop.
  destruct Hloop as [rows [issued
    [Hc [Hf [Hv [Hu [Hrows [Hreq [Hcount [Hnodup Hend]]]]]]]]]].
  simpl in *. rewrite filter_nothing in Hc, Hnodup. simpl in Hc.
  assert (Hkeys : NoDup (map Component.id (components (db p')))).
  { apply Hnodup. constructor. }
  assert (Hissued : creates_issued p' = issued) by exact Hcount.
  clear Hcount Hnodup. rewrite <- Hissued in *. clear Hissued issued.
  rewrite <- Hc in *. clear Hc rows.
  unfold creates_issued in *.
  intros H. destruct c' as [[]|e|code]; [| |contradiction];
    inversion H; subst; clear H; simpl;
    rewrite ?creates_app; simpl; rewrite ?Nat.add_0_r;
    (split; [assumption|]); right;
    rewrite ?database_requests_app; simpl; rewrite ?app_nil_r, Hreq;
    repeat (split; [solve [auto]|]).
  - left. intuition congruence.
  - right. intuition congruence.
Qed.

(** What a run prints and sends: the events of [main], then the
    disconnect if [main] was fulfilled, the error report if it was not. *)
Lemma run_seed_events registry w db0 c p :
  run_seed registry w db0 = (c, p) ->
  exists evs,
    forallb from_main evs = true /\
    ((c = Fulfilled tt /\ events p = evs ++ [Disconnect]) \/
     (exists e, c = Exited 1%Z /\ events p = evs ++ [ConsoleError e])).
Proof.
  unfold run_seed. rewrite seed_script_run, main_run. simpl.
  destruct (fault w 0).
  { intros H. inversion H; subst.
    exists [ConsoleLog StartingSeed; DeleteManyRequest].
    split; [reflexivity|]. right. exists ConnectionError. auto. }
  destruct (for_of registry seed_component w _) as [c' p'] eqn:Hloop.
  assert (Hend : forall code, c' <> Exited code).
  { apply seed_loop in Hloop.
    destruct Hloop as [? [? [_ [_ [_ [_ [_ [_ [_ [_ Hend]]]]]]]]]].
    intros code ->. exact Hend. }
  apply seed_loop_events in Hloop. destruct Hloop as [evs [Hevs Hmain]].
  simpl in Hevs.
  intros H. destruct c' as [[]|e|code]; [| |now destruct (Hend code)];
    inversion H; subst; clear H; simpl; rewrite Hevs.
  - exists ([ConsoleLog StartingSeed; DeleteManyRequest;
             ConsoleLog ClearedExisting] ++ evs
            ++ [ConsoleLog (SuccessfullySeeded (length registry))]).
    split; [|left; split; [reflexivity|]; now rewrite <- !app_assoc].
    simpl. rewrite forallb_app, Hmain. reflexivity.
  - exists ([ConsoleLog StartingSeed; DeleteManyRequest;
             ConsoleLog ClearedExisting] ++ evs).
    split; [|right; exists e; split; reflexivity].
    simpl. exact Hmain.
Qed.

(** * What an inserted row looks like *)

Lemma inserted_for_carries comp row :
  inserted_for comp row -> carries comp row.
Proof.
  intros [now [deps [_ ->]]]. unfold carries. simpl. repeat split.
Qed.

Lemma inserted_for_defaults comp row :
  inserted_for comp row ->
  Component.views row = 0%Z /\ Component.copies row = 0%Z.
Proof. intros [now [deps [_ ->]]]. simpl. auto. Qed.

Lemma falsy_or_empty (v : JsValue) :
  truthy v = false -> js_or v (JsArray []) = JsArray [].
Proof. unfold js_or. now intros ->. Qed.

Lemma inserted_for_falsy_dependencies comp row :
  inserted_for comp row ->
  truthy (ComponentMetadata.get_dependencies comp) = false ->
  Component.dependencies row = Some [].
Proof.
  intros [now [deps [Hdeps ->]]] Hfalsy. simpl in *.
  rewrite (falsy_or_empty _ Hfalsy) in Hdeps. simpl in Hdeps.
  congruence.
Qed.

(** Two rows inserted for the same entry differ in their timestamps only. *)
Lemma inserted_for_untimed comp row1 row2 :
  inserted_for comp row1 -> inserted_for comp row2 ->
  untimed row1 = untimed row2.
Proof.
  intros [now1 [deps1 [H1 ->]]] [now2 [deps2 [H2 ->]]].
  rewrite H1 in H2. inversion H2. reflexivity.
Qed.

Lemma Forall2_inserted_untimed registry rows1 :
  Forall2 inserted_for registry rows1 ->
  forall rows2, Forall2 inserted_for registry rows2 ->
  map untimed rows1 = map untimed rows2.
Proof.
  induction 1 as [|comp row1 registry rows1 Hrow1 _ IH];
    intros rows2 H2; inversion H2; subst; simpl; [reflexivity|].
  f_equal; [eapply inserted_for_untimed; eassumption | now apply IH].
Qed.

Lemma Forall2_weaken {A B : Type} (P Q : A -> B -> Prop) l1 l2 :
  (forall a b, P a b -> Q a b) -> Forall2 P l1 l2 -> Forall2 Q l1 l2.
Proof. intros HPQ. induction 1; constructor; auto. Qed.

Lemma Forall2_right {A B : Type} (P : A -> B -> Prop) (Q : B -> Prop) l1 l2 :
  (forall a b, P a b -> Q b) -> Forall2 P l1 l2 -> Forall Q l2.
Proof. intros HPQ. induction 1; constructor; eauto. Qed.

(** * The seed script (claims C1 to C4 and C8 to C10) *)

(** C1. A successful run of the seed script sends one [deleteMany] and then
    one [create] per registry entry, in registry order; afterwards the
    "Component" table holds exactly as many rows as the registry has
    entries, the i-th row carrying the i-th entry's id, name, description,
    category, tags, filePath, componentPath, code, responsive and
    darkMode. *)
Theorem seed_populates_one_row_per_entry registry w db0 p :
  run_seed registry w db0 = (Fulfilled tt, p) ->
  database_requests (events p) =
    DeleteManyRequest :: map create_request registry /\
  length (components (db p)) = length registry /\
  Forall2 carries registry (components (db p)).
Proof.
  intros Hrun. apply run_seed_cases in Hrun.
  destruct Hrun as [_ [[_ [Habs _]] | [_ [_ [_ [Hrows [_ [Hreq Hend]]]]]]]];
    [discriminate|].
  destruct Hend as [[_ [Hlen Hissued]] | [Habs _]]; [|discriminate].
  rewrite Hissued in Hreq. rewrite Hlen in Hrows.
  rewrite firstn_all in Hreq, Hrows.
  repeat split; auto.
  eapply Forall2_weaken; [apply inserted_for_carries | exact Hrows].
Qed.

Lemma seed_populates_one_row_per_entry_witness :
  length (components (db (snd first_run))) = 2 /\
  Forall2 carries sample_registry (components (db (snd first_run))).
Proof.
  apply (seed_populates_one_row_per_entry sample_registry (calm 1000%Z)
           used_database (snd first_run)).
  reflexivity.
Defined.

(** C2, as stated, fails: the rows of the second run are not the rows of
    the first, because "createdAt" and "updatedAt" are assigned when a row
    is inserted. *)
Lemma reseed_changes_timestamps :
  fst first_run = Fulfilled tt /\
  fst second_run = Fulfilled tt /\
  components (db (snd second_run)) <> components (db (snd first_run)).
Proof.
  split; [reflexivity|]. split; [reflexivity|].
  intros H. apply (f_equal (map Component.createdAt)) in H.
  vm_compute in H. discriminate.
Qed.

(** C2, amended. Seeding twice in a row leaves the "Component" table with
    the rows that seeding once leaves, up to their createdAt and updatedAt
    timestamps: one row per registry entry, no id twice. *)
Theorem reseed_same_rows_up_to_timestamps registry w1 w2 db0 p1 p2 :
  run_seed registry w1 db0 = (Fulfilled tt, p1) ->
  run_seed registry w2 (db p1) = (Fulfilled tt, p2) ->
  map untimed (components (db p2)) = map untimed (components (db p1)) /\
  length (components (db p2)) = length registry /\
  NoDup (map Component.id (components (db p2))).
Proof.
  intros Hrun1 Hrun2.
  apply run_seed_cases in Hrun1, Hrun2.
  destruct Hrun1 as [_ [[_ [Habs _]] | [_ [_ [_ [Hrows1 [_ [_ Hend1]]]]]]]];
    [discriminate|].
  destruct Hrun2 as [_ [[_ [Habs _]] | [_ [_ [_ [Hrows2 [Hkeys [_ Hend2]]]]]]]];
    [discriminate|].
  destruct Hend1 as [[_ [Hlen1 _]] | [Habs _]]; [|discriminate].
  destruct Hend2 as [[_ [Hlen2 _]] | [Habs _]]; [|discriminate].
  rewrite Hlen1 in Hrows1. rewrite Hlen2 in Hrows2.
  rewrite firstn_all in Hrows1, Hrows2.
  repeat split; auto.
  eapply Forall2_inserted_untimed; eassumption.
Qed.

Lemma reseed_same_rows_up_to_timestamps_witness :
  map untimed (components (db (snd second_run))) =
    map untimed (components (db (snd first_run))) /\
  length (components (db (snd second_run))) = 2 /\
  NoDup (map Component.id (components (db (snd second_run)))).
Proof.
  apply (reseed_same_rows_up_to_timestamps sample_registry
           (calm 1000%Z) (calm 5000%Z) used_database
           (snd first_run) (snd second_run)); reflexivity.
Defined.

(** C3. The seed is not atomic.  When the run does not succeed and its last
    [create] was the one for entry number [k] (counting from 0), the
    process ends with status 1 and the "Component" table holds exactly the
    rows of the [k] entries before it: the rows deleted at the start are
    not restored and the rows inserted so far are not taken back. *)
Theorem failed_seed_leaves_prefix registry w db0 c p k :
  run_seed registry w db0 = (c, p) ->
  c <> Fulfilled tt ->
  creates_issued p = S k ->
  c = Exited 1%Z /\
  k < length registry /\
  length (components (db p)) = k /\
  Forall2 carries (firstn k registry) (components (db p)).
Proof.
  intros Hrun Hfail Hk. apply run_seed_cases in Hrun.
  destruct Hrun as [_ [[_ [_ [_ Hnone]]] | [_ [_ [_ [Hrows [_ [_ Hend]]]]]]]];
    [congruence|].
  destruct Hend as [[Habs _] | [Hc [Hissued Hle]]]; [contradiction|].
  assert (Hlen : length (components (db p)) = k) by lia.
  rewrite Hlen in Hrows.
  repeat split; auto; [lia|].
  eapply Forall2_weaken; [apply inserted_for_carries | exact Hrows].
Qed.

Lemma failed_seed_leaves_prefix_witness :
  fst (run_seed sample_registry (failing_at 2 1000%Z) used_database)
    = Exited 1%Z /\
  map Component.id
    (components
       (db (snd (run_seed sample_registry (failing_at 2 1000%Z)
                   used_database))))
    = ["glow-button-1"] /\
  Forall2 carries (firstn 1 sample_registry)
    (components
       (db (snd (run_seed sample_registry (failing_at 2 1000%Z)
                   used_database)))).
Proof.
  split; [reflexivity|]. split; [reflexivity|].
  apply (failed_seed_leaves_prefix sample_registry (failing_at 2 1000%Z)
           used_database
           (fst (run_seed sample_registry (failing_at 2 1000%Z) used_database))
           (snd (run_seed sample_registry (failing_at 2 1000%Z) used_database))
           1).
  - reflexivity.
  - discriminate.
  - reflexivity.
Defined.

(** A run that is not fulfilled reports the error and ends with status 1;
    the [finally] callback does not get to run, so nothing disconnects. *)
Lemma failed_seed_is_logged_and_exits registry w db0 c p :
  run_seed registry w db0 = (c, p) ->
  c <> Fulfilled tt ->
  exit_status c = 1%Z /\
  (exists e evs, events p = evs ++ [ConsoleError e]) /\
  ~ In Disconnect (events p).
Proof.
  intros Hrun Hfail. apply run_seed_events in Hrun.
  destruct Hrun as [evs [Hmain [[Hc _] | [e [-> Hevs]]]]]; [contradiction|].
  split; [reflexivity|]. split; [eauto|].
  rewrite Hevs, in_app_iff. intros [Hin | [Hin | []]]; [|discriminate].
  rewrite forallb_forall in Hmain. apply Hmain in Hin. discriminate.
Qed.

(** A fulfilled run reports no error and disconnects as its last step. *)
Lemma fulfilled_seed_disconnects registry w db0 p :
  run_seed registry w db0 = (Fulfilled tt, p) ->
  (exists evs, events p = evs ++ [Disconnect]) /\
  forall e, ~ In (ConsoleError e) (events p).
Proof.
  intros Hrun. apply run_seed_events in Hrun.
  destruct Hrun as [evs [Hmain [[_ Hevs] | [e [Habs _]]]]]; [|discriminate].
  split; [eauto|]. intros e.
  rewrite Hevs, in_app_iff. intros [Hin | [Hin | []]]; [|discriminate].
  rewrite forallb_forall in Hmain. apply Hmain in Hin. discriminate.
Qed.

(** C4, at an input where the claim does not hold.  Seeding the registry
    while the database cannot be reached: the [deleteMany] is rejected, the
    error is logged and the process ends with status 1, as claimed; but
    [process.exit(1)] ends the process inside the [catch] callback, so the
    [finally] callback never runs and [$disconnect] is not called. *)
Theorem unreachable_database_exits_before_disconnect :
  run_seed sample_registry (failing_at 0 1000%Z) used_database =
    (Exited 1%Z,
     mkProcess used_database 1
       [ConsoleLog StartingSeed; DeleteManyRequest;
        ConsoleError ConnectionError]) /\
  ~ In Disconnect
      (events (snd (run_seed sample_registry (failing_at 0 1000%Z)
                      used_database))).
Proof.
  split; [reflexivity|]. simpl.
  intros [H|[H|[H|[]]]]; discriminate.
Qed.

(** A repeated id is refused by [Component_pkey]: the run stops there, with
    the rows inserted before it in place and no disconnect. *)
Lemma repeated_id_stops_the_seed :
  fst (run_seed clashing_registry (calm 1000%Z) used_database) = Exited 1%Z /\
  map Component.id
    (components (db (snd (run_seed clashing_registry (calm 1000%Z)
                            used_database))))
    = ["glow-button-1"; "glass-navbar-1"] /\
  last (events (snd (run_seed clashing_registry (calm 1000%Z) used_database)))
       Disconnect
    = ConsoleError (UniqueConstraintViolation "Component_pkey").
Proof. repeat split. Qed.

(** Seeding never touches the "User" table. *)
Lemma seed_leaves_users registry w db0 :
  users (db (snd (run_seed registry w db0))) = users db0.
Proof.
  destruct (run_seed registry w db0) as [c p] eqn:Hrun.
  apply run_seed_cases in Hrun. simpl. tauto.
Qed.

(** C8. When the [deleteMany] of a seed run goes through on a database
    whose foreign keys hold, the cascade removes every row of "Favorite"
    and of "ComponentVersion"; the "User" table is as it was before the
    run. *)
Theorem seed_removes_favorites_and_versions registry w db0 c p :
  consistent db0 ->
  fault w 0 = false ->
  run_seed registry w db0 = (c, p) ->
  favorites (db p) = [] /\
  versions (db p) = [] /\
  users (db p) = users db0.
Proof.
  intros Hdb Hsent Hrun. apply run_seed_cases in Hrun.
  destruct Hrun as [Hu [[Habs _] | [_ [Hf [Hv _]]]]]; [congruence|].
  destruct (delete_all_components db0) as [_ [_ Hcascade]].
  destruct (Hcascade Hdb) as [Hf0 Hv0].
  rewrite Hf, Hv. auto.
Qed.

Lemma seed_removes_favorites_and_versions_witness :
  consistent used_database /\
  favorites used_database = [alice_likes_old_card] /\
  favorites (db (snd first_run)) = [] /\
  versions (db (snd first_run)) = [] /\
  users (db (snd first_run)) = [alice].
Proof.
  split; [exact (reachable_consistent _ used_database_reachable)|].
  split; [reflexivity|].
  apply (seed_removes_favorites_and_versions sample_registry (calm 1000%Z)
           used_database (fst first_run) (snd first_run)).
  - exact (reachable_consistent _ used_database_reachable).
  - reflexivity.
  - reflexivity.
Defined.

(** C9. For an entry whose [dependencies] is absent, [undefined] or any
    other falsy value, the script passes the empty array to [create], and
    the row it inserts has [dependencies] equal to the empty array (not
    NULL).  This holds for every row of a run whose [deleteMany] went
    through, whether or not the run reached the end of the registry. *)
Theorem falsy_dependencies_become_empty_array registry w db0 c p :
  fault w 0 = false ->
  run_seed registry w db0 = (c, p) ->
  Forall2
    (fun comp row =>
       truthy (ComponentMetadata.get_dependencies comp) = false ->
       ComponentCreateInput.dependencies (create_data comp) = JsArray [] /\
       Component.dependencies row = Some [])
    (firstn (length (components (db p))) registry)
    (components (db p)).
Proof.
  intros Hsent Hrun. apply run_seed_cases in Hrun.
  destruct Hrun as [_ [[Habs _] | [_ [_ [_ [Hrows _]]]]]]; [congruence|].
  eapply Forall2_weaken; [|exact Hrows].
  intros comp row Hrow Hfalsy. split.
  - simpl. now apply falsy_or_empty.
  - eapply inserted_for_falsy_dependencies; eassumption.
Qed.

Lemma falsy_dependencies_become_empty_array_witness :
  ComponentMetadata.dependencies glow_button = None /\
  map Component.dependencies (components (db (snd first_run)))
    = [Some []; Some ["lucide-react"]] /\
  Forall2
    (fun comp row =>
       truthy (ComponentMetadata.get_dependencies comp) = false ->
       ComponentCreateInput.dependencies (create_data comp) = JsArray [] /\
       Component.dependencies row = Some [])
    sample_registry
    (components (db (snd first_run))).
Proof.
  split; [reflexivity|]. split; [reflexivity|].
  apply (falsy_dependencies_become_empty_array sample_registry (calm 1000%Z)
           used_database (fst first_run) (snd first_run)); reflexivity.
Defined.

(** C10. The script passes neither [views] nor [copies] to [create], and
    every row of a run whose [deleteMany] went through has views = 0 and
    copies = 0, the defaults of the two columns. *)
Theorem seeded_rows_have_zero_counters registry w db0 c p :
  fault w 0 = false ->
  run_seed registry w db0 = (c, p) ->
  Forall (fun comp =>
            ComponentCreateInput.views (create_data comp) = None /\
            ComponentCreateInput.copies (create_data comp) = None)
         registry /\
  Forall (fun row => Component.views row = 0%Z /\ Component.copies row = 0%Z)
         (components (db p)).
Proof.
  intros Hsent Hrun. split.
  - apply Forall_forall. intros comp _. split; reflexivity.
  - apply run_seed_cases in Hrun.
    destruct Hrun as [_ [[Habs _] | [_ [_ [_ [Hrows _]]]]]]; [congruence|].
    eapply Forall2_right; [|exact Hrows].
    intros comp row. apply inserted_for_defaults.
Qed.

Lemma seeded_rows_have_zero_counters_witness :
  Component.views old_card = 7%Z /\
  Forall (fun row => Component.views row = 0%Z /\ Component.copies row = 0%Z)
         (components (db (snd first_run))).
Proof.
  split; [reflexivity|].
  apply (seeded_rows_have_zero_counters sample_registry (calm 1000%Z)
           used_database (fst first_run) (snd first_run)); reflexivity.
Defined.

(** * When the seed succeeds *)

Lemma seed_loop_succeeds w registry : forall p,
  (forall k, fault w k = false) ->
  NoDup (map ComponentMetadata.id registry) ->
  (forall comp, In comp registry ->
     ~ In (ComponentMetadata.id comp) (map Component.id (components (db p)))) ->
  Forall (fun comp => exists deps,
            validate_string_list "dependencies"
              (ComponentCreateInput.dependencies (create_data comp)) = Ok deps)
         registry ->
  exists p', for_of registry seed_component w p = (Fulfilled tt, p').
Proof.
  induction registry as [|comp registry IH]; intros p Hcalm Hids Hfree Hvalid.
  - exists p. reflexivity.
  - simpl. unfold bind at 1. rewrite seed_component_run. simpl.
    rewrite Hcalm.
    inversion Hids as [|? ? Hnotin Hrest]; subst.
    inversion Hvalid as [|? ? [deps Hdeps] Hvalid']; subst.
    unfold component_create, insert_component. rewrite Hdeps.
    assert (Hpk : has_component
                    (Component.id (component_row (clock w (requests p))
                                     (create_data comp) deps)) (db p) = false).
    { apply mem_false_iff. simpl. apply Hfree. now left. }
    rewrite Hpk. apply IH; auto.
    simpl. intros comp' Hin. rewrite map_app, in_app_iff. simpl.
    intros [H | [H | []]].
    + apply (Hfree comp'); [now right | assumption].
    + apply Hnotin. rewrite H. now apply in_map.
Qed.

(** X8. When no request is lost, the ids of the registry are distinct and
    every [dependencies] is falsy or an array, the script runs to the end,
    whatever the database held before. *)
Lemma seed_succeeds registry w db0 :
  (forall k, fault w k = false) ->
  NoDup (map ComponentMetadata.id registry) ->
  Forall (fun comp => exists deps,
            validate_string_list "dependencies"
              (ComponentCreateInput.dependencies (create_data comp)) = Ok deps)
         registry ->
  fst (run_seed registry w db0) = Fulfilled tt.
Proof.
  intros Hcalm Hids Hvalid.
  unfold run_seed. rewrite seed_script_run, main_run. simpl.
  rewrite Hcalm.
  destruct (seed_loop_succeeds w registry
              (mkProcess (delete_components_where (fun _ => true) db0) 1
                 [ConsoleLog StartingSeed; DeleteManyRequest;
                  ConsoleLog ClearedExisting]))
    as [p' Hp']; auto.
  - simpl. rewrite filter_nothing. auto.
  - rewrite Hp'. reflexivity.
Qed.

(** Seeding stays within the reachable states of the database. *)
Lemma seed_loop_reachable registry : forall w p c p',
  for_of registry seed_component w p = (c, p') ->
  reachable (db p) -> reachable (db p').
Proof.
  induction registry as [|comp registry IH]; intros w p c p' Hrun Hp.
  - inversion Hrun; now subst.
  - simpl in Hrun. unfold bind in Hrun at 1.
    rewrite seed_component_run in Hrun. simpl in Hrun.
    destruct (fault w (requests p)); [inversion Hrun; now subst|].
    destruct (component_create _ _ _) as [d'|e] eqn:Hcreate;
      [|inversion Hrun; now subst].
    apply IH in Hrun; [assumption|]. simpl.
    unfold component_create in Hcreate.
    destruct (validate_string_list _ _) as [deps|]; [|discriminate].
    eapply (reachable_step (InsertComponent _)); eassumption.
Qed.

(** X13. A run of the seed script, fulfilled or not, takes a reachable
    database to a reachable one: seeding cannot break a primary key, a
    unique index or a foreign key. *)
Lemma run_seed_reachable registry w db0 :
  reachable db0 -> reachable (db (snd (run_seed registry w db0))).
Proof.
  intros Hdb. unfold run_seed. rewrite seed_script_run, main_run. simpl.
  destruct (fault w 0); [assumption|].
  destruct (for_of registry seed_component w _) as [c p'] eqn:Hloop.
  apply seed_loop_reachable in Hloop.
  - destruct c as [[]|e|code]; assumption.
  - simpl. now apply (reachable_step DeleteAllComponents db0).
Qed.

(** * The client singleton (claim C7) *)

Lemma evaluate_in_development node_env rt :
  Singleton.not_production node_env = true ->
  Singleton.evaluate node_env rt =
  match Singleton.globalForPrisma rt with
  | Some cached =>
      (cached, Singleton.mkRuntime (Some cached) (Singleton.constructed rt))
  | None =>
      (Singleton.constructed rt,
       Singleton.mkRuntime (Some (Singleton.constructed rt))
                           (S (Singleton.constructed rt)))
  end.
Proof.
  intros Hdev. unfold Singleton.evaluate. rewrite Hdev.
  destruct (Singleton.globalForPrisma rt); reflexivity.
Qed.

(** Once a client is cached on [globalThis], every evaluation exports it
    and constructs nothing. *)
Lemma reload_cached node_env n : forall rt cached,
  Singleton.not_production node_env = true ->
  Singleton.globalForPrisma rt = Some cached ->
  Singleton.reload node_env n rt =
    (repeat cached n,
     Singleton.mkRuntime (Some cached) (Singleton.constructed rt)).
Proof.
  induction n as [|n IH]; intros rt cached Hdev Hcached.
  - destruct rt as [g k]. simpl in *. now subst.
  - simpl. rewrite (evaluate_in_development _ _ Hdev), Hcached.
    rewrite (IH (Singleton.mkRuntime (Some cached) (Singleton.constructed rt))
               cached Hdev eq_refl).
    reflexivity.
Qed.

(** C7. While NODE_ENV is not 'production' (development, where modules
    are reloaded), every evaluation of the module in a process exports the
    same client instance: the one cached on [globalThis] if there is one,
    otherwise the one that the first evaluation constructs.  Over all the
    evaluations one client is constructed in the second case and none in
    the first. *)
Theorem singleton_created_once_and_reused node_env n rt :
  Singleton.not_production node_env = true ->
  exists client,
    fst (Singleton.reload node_env (S n) rt) = repeat client (S n) /\
    Singleton.globalForPrisma (snd (Singleton.reload node_env (S n) rt))
      = Some client /\
    match Singleton.globalForPrisma rt with
    | Some cached =>
        client = cached /\
        Singleton.constructed (snd (Singleton.reload node_env (S n) rt))
          = Singleton.constructed rt
    | None =>
        client = Singleton.constructed rt /\
        Singleton.constructed (snd (Singleton.reload node_env (S n) rt))
          = S (Singleton.constructed rt)
    end.
Proof.
  intros Hdev.
  destruct (Singleton.globalForPrisma rt) as [cached|] eqn:Hglobal.
  - exists cached. rewrite (reload_cached _ _ _ cached Hdev Hglobal).
    simpl. auto.
  - exists (Singleton.constructed rt).
    simpl. rewrite (evaluate_in_development _ _ Hdev), Hglobal.
    rewrite (reload_cached node_env n
               (Singleton.mkRuntime (Some (Singleton.constructed rt))
                                    (S (Singleton.constructed rt)))
               (Singleton.constructed rt) Hdev eq_refl).
    simpl. auto.
Qed.

Lemma singleton_created_once_and_reused_witness :
  Singleton.not_production (Some "development") = true /\
  exists client,
    fst (Singleton.reload (Some "development") 3 (Singleton.mkRuntime None 0))
      = [client; client; client] /\
    Singleton.constructed
      (snd (Singleton.reload (Some "development") 3
              (Singleton.mkRuntime None 0))) = 1.
Proof.
  split; [reflexivity|].
  destruct (singleton_created_once_and_reused (Some "development") 2
              (Singleton.mkRuntime None 0) eq_refl)
    as [client [Hsame [_ [_ Hcount]]]].
  exists client. split; [exact Hsame | exact Hcount].
Defined.

(** X19. In production the module does not write to [globalThis]: when no
    client is cached there, each evaluation constructs a client of its own
    and [globalThis] stays empty. *)
Lemma production_constructs_per_evaluation n : forall rt,
  Singleton.globalForPrisma rt = None ->
  Singleton.reload (Some "production") n rt =
    (seq (Singleton.constructed rt) n,
     Singleton.mkRuntime None (n + Singleton.constructed rt)).
Proof.
  induction n as [|n IH]; intros [g k] Hglobal; simpl in Hglobal; subst.
  - reflexivity.
  - change (Singleton.reload (Some "production") (S n)
              (Singleton.mkRuntime None k))
      with (let (clients, rt2) :=
              Singleton.reload (Some "production") n
                (Singleton.mkRuntime None (S k)) in
            (k :: clients, rt2)).
    rewrite IH by reflexivity. simpl. rewrite Nat.add_succ_r. reflexivity.
Qed.

(** * More on the schema *)

Lemma filter_keeps_all {A : Type} (p : A -> bool) (l : list A) :
  (forall a, In a l -> p a = true) -> filter p l = l.
Proof.
  induction l as [|a l IH]; simpl; intros H; [reflexivity|].
  rewrite (H a) by now left. f_equal. apply IH. auto.
Qed.

Lemma filter_drops_all {A : Type} (p : A -> bool) (l : list A) :
  (forall a, In a l -> p a = false) -> filter p l = [].
Proof.
  induction l as [|a l IH]; simpl; intros H; [reflexivity|].
  rewrite (H a) by now left. apply IH. auto.
Qed.

(** The ids removed by [DELETE ... WHERE id = cid] are all [cid]. *)
Lemma gone_is_cid cid (l : list Component.t) (x : string) :
  mem x (map Component.id (filter (fun c => Component.id c =? cid) l)) = true ->
  x = cid.
Proof.
  rewrite mem_true_iff, in_map_iff. intros [c [<- Hc]].
  apply filter_In in Hc. destruct Hc as [_ Hc]. now apply String.eqb_eq.
Qed.

(** X1. In every reachable state the ids of each of the four tables are
    pairwise distinct, and an insert that reuses an id of its table is
    refused with the violation of that table's primary key. *)
Theorem primary_keys_are_unique (d : Database) :
  reachable d ->
  (NoDup (map Component.id (components d)) /\
   NoDup (map Favorite.id (favorites d)) /\
   NoDup (map ComponentVersion.id (versions d)) /\
   NoDup (map User.id (users d))) /\
  (forall row, In (Component.id row) (map Component.id (components d)) ->
     execute (InsertComponent row) d =
       Err (UniqueConstraintViolation "Component_pkey")) /\
  (forall row, In (Favorite.id row) (map Favorite.id (favorites d)) ->
     execute (InsertFavorite row) d =
       Err (UniqueConstraintViolation "Favorite_pkey")) /\
  (forall row,
     In (ComponentVersion.id row) (map ComponentVersion.id (versions d)) ->
     execute (InsertVersion row) d =
       Err (UniqueConstraintViolation "ComponentVersion_pkey")) /\
  (forall row, In (User.id row) (map User.id (users d)) ->
     execute (InsertUser row) d =
       Err (UniqueConstraintViolation "User_pkey")).
Proof.
  intros Hd. apply reachable_consistent in Hd. destruct Hd.
  split; [auto|].
  repeat split; intros row Hin; apply mem_true_iff in Hin; simpl.
  - unfold insert_component, has_component. now rewrite Hin.
  - unfold insert_favorite, has_favorite. now rewrite Hin.
  - unfold insert_version, has_version. now rewrite Hin.
  - unfold insert_user, has_user. now rewrite Hin.
Qed.

Lemma primary_keys_are_unique_witness :
  reachable used_database /\
  NoDup (map Component.id (components used_database)) /\
  execute (InsertComponent old_card) used_database =
    Err (UniqueConstraintViolation "Component_pkey").
Proof.
  destruct (primary_keys_are_unique used_database used_database_reachable)
    as [[Hkeys _] [Hrefused _]].
  split; [exact used_database_reachable|].
  split; [exact Hkeys|].
  apply Hrefused. simpl. left. reflexivity.
Defined.

(** X2. In every reachable state no two users share an email, and inserting
    a user whose email is taken is refused (by [User_email_key] when the
    new id is free) and changes nothing. *)
Theorem user_emails_are_unique (d : Database) :
  reachable d ->
  NoDup (map User.email (users d)) /\
  forall row, In (User.email row) (map User.email (users d)) ->
    (exists e, execute (InsertUser row) d = Err e) /\
    (has_user (User.id row) d = false ->
     execute (InsertUser row) d =
       Err (UniqueConstraintViolation "User_email_key")) /\
    apply_statement (InsertUser row) d = d.
Proof.
  intros Hd. split.
  - apply reachable_consistent in Hd. now destruct Hd.
  - intros row Hin. apply mem_true_iff in Hin.
    unfold apply_statement. simpl. unfold insert_user, has_email.
    rewrite Hin. destruct (has_user (User.id row) d); repeat split; eauto.
    discriminate.
Qed.

Lemma user_emails_are_unique_witness :
  reachable used_database /\
  execute (InsertUser (User.mk "user-2" "alice@example.com" None "user"
                         900%Z 900%Z)) used_database =
    Err (UniqueConstraintViolation "User_email_key").
Proof.
  split; [exact used_database_reachable|].
  destruct (user_emails_are_unique used_database used_database_reachable)
    as [_ Hdup].
  destruct (Hdup (User.mk "user-2" "alice@example.com" None "user"
                    900%Z 900%Z)) as [_ [Hindex _]].
  - simpl. left. reflexivity.
  - apply Hindex. reflexivity.
Defined.

(** X3. In every reachable state each favorite and each version references
    a component that exists, and inserting a favorite or a version for a
    component that does not exist is refused and changes nothing. *)
Theorem references_point_at_components (d : Database) :
  reachable d ->
  Forall (fun f => has_component (Favorite.componentId f) d = true)
         (favorites d) /\
  Forall (fun v => has_component (ComponentVersion.componentId v) d = true)
         (versions d) /\
  (forall row, has_component (Favorite.componentId row) d = false ->
     (exists e, execute (InsertFavorite row) d = Err e) /\
     apply_statement (InsertFavorite row) d = d) /\
  (forall row, has_component (ComponentVersion.componentId row) d = false ->
     (exists e, execute (InsertVersion row) d = Err e) /\
     apply_statement (InsertVersion row) d = d).
Proof.
  intros Hd. apply reachable_consistent in Hd. destruct Hd.
  split; [|split; [|split]].
  - eapply Forall_impl; [|eassumption]. intros f Hf. now apply mem_true_iff.
  - eapply Forall_impl; [|eassumption]. intros v Hv. now apply mem_true_iff.
  - intros row Hmissing. unfold apply_statement. simpl.
    unfold insert_favorite. rewrite Hmissing. simpl.
    destruct (has_favorite _ d); [eauto|].
    destruct (has_favorite_key _ _); eauto.
  - intros row Hmissing. unfold apply_statement. simpl.
    unfold insert_version. rewrite Hmissing. simpl.
    destruct (has_version _ d); eauto.
Qed.

Lemma references_point_at_components_witness :
  reachable used_database /\
  execute (InsertFavorite (Favorite.mk "fav-9" "user-1" "no-such-component"
                             900%Z)) used_database =
    Err (ForeignKeyViolation "Favorite_componentId_fkey") /\
  Forall (fun f => has_component (Favorite.componentId f) used_database = true)
         (favorites used_database).
Proof.
  split; [exact used_database_reachable|]. split; [reflexivity|].
  apply (references_point_at_components used_database
           used_database_reachable).
Defined.

(** X4. Changing the id of an existing component takes its favorites and
    versions along ([ON UPDATE CASCADE]): afterwards the old id is gone from
    "Component", the new one is there, no favorite and no version references
    the old id, every favorite that referenced it references the new id, and
    no favorite is lost. *)
Theorem update_component_id_cascades cid row d d' :
  has_component cid d = true ->
  Component.id row <> cid ->
  execute (UpdateComponent cid row) d = Ok d' ->
  has_component cid d' = false /\
  has_component (Component.id row) d' = true /\
  Forall (fun f => Favorite.componentId f <> cid) (favorites d') /\
  Forall (fun v => ComponentVersion.componentId v <> cid) (versions d') /\
  map Favorite.id (favorites d') = map Favorite.id (favorites d) /\
  (forall f, In f (favorites d) -> Favorite.componentId f = cid ->
     In (Favorite.with_componentId (Component.id row) f) (favorites d')).
Proof.
  intros Hcid Hnew H. simpl in H. unfold update_component in H.
  rewrite Hcid in H. simpl in H.
  destruct (negb (Component.id row =? cid) &&
            has_component (Component.id row) d); inversion H; subst; clear H.
  unfold has_component in *. simpl.
  apply mem_true_iff, in_map_iff in Hcid. destruct Hcid as [c [Hc Hcin]].
  split; [|split; [|split; [|split; [|split]]]].
  - apply mem_false_iff. unfold replace_row. rewrite map_map, in_map_iff.
    intros [c' [Hc' _]].
    destruct (String.eqb_spec (Component.id c') cid); congruence.
  - apply mem_true_iff. unfold replace_row. rewrite map_map, in_map_iff.
    exists c. split; [|assumption]. rewrite Hc, String.eqb_refl. reflexivity.
  - apply Forall_forall. intros f Hf. apply in_map_iff in Hf.
    destruct Hf as [g [<- _]]. simpl.
    destruct (String.eqb_spec (Favorite.componentId g) cid); congruence.
  - apply Forall_forall. intros v Hv. apply in_map_iff in Hv.
    destruct Hv as [u [<- _]]. simpl.
    destruct (String.eqb_spec (ComponentVersion.componentId u) cid);
      congruence.
  - rewrite map_map. apply map_ext. reflexivity.
  - intros f Hf Href. apply in_map_iff. exists f. split; [|assumption].
    rewrite Href, String.eqb_refl. reflexivity.
Qed.

Lemma update_component_id_cascades_witness :
  exists d',
    execute (UpdateComponent "old-card-1" glow_row_sample)
            used_database = Ok d' /\
    map Favorite.componentId (favorites d') = ["glow-button-1"] /\
    has_component "old-card-1" d' = false.
Proof.
  eexists. split; [reflexivity|]. split; [reflexivity|].
  eapply (update_component_id_cascades "old-card-1" glow_row_sample
            used_database).
  - reflexivity.
  - discriminate.
  - reflexivity.
Defined.

(** X5. Deleting a component id that is not in the table changes nothing:
    no row of any table is removed. *)
Theorem delete_missing_component_is_noop cid d :
  has_component cid d = false -> delete_component cid d = d.
Proof.
  intros Hmissing. unfold has_component in Hmissing.
  apply mem_false_iff in Hmissing.
  assert (Hnone : filter (fun c => Component.id c =? cid) (components d) = []).
  { apply filter_drops_all. intros c Hc. apply String.eqb_neq.
    intros E. apply Hmissing. rewrite <- E. now apply in_map. }
  unfold delete_component, delete_components_where. rewrite Hnone. simpl.
  rewrite !filter_keeps_all; [now destruct d | auto | auto |].
  intros c Hc. apply negb_true_iff, String.eqb_neq.
  intros E. apply Hmissing. rewrite <- E. now apply in_map.
Qed.

Lemma delete_missing_component_is_noop_witness :
  delete_component "no-such-component" used_database = used_database.
Proof.
  apply (delete_missing_component_is_noop "no-such-component" used_database).
  reflexivity.
Defined.

(** X6. Deleting a component touches nothing else: the other components,
    the favorites and versions of other components, and all users stay. *)
Theorem delete_component_keeps_the_rest cid d :
  (forall c, In c (components d) -> Component.id c <> cid ->
     In c (components (delete_component cid d))) /\
  (forall f, In f (favorites d) -> Favorite.componentId f <> cid ->
     In f (favorites (delete_component cid d))) /\
  (forall v, In v (versions d) -> ComponentVersion.componentId v <> cid ->
     In v (versions (delete_component cid d))) /\
  users (delete_component cid d) = users d.
Proof.
  unfold delete_component, delete_components_where. simpl.
  repeat split.
  - intros c Hc Hne. apply filter_In. split; [assumption|].
    now apply negb_true_iff, String.eqb_neq.
  - intros f Hf Hne. apply filter_In. split; [assumption|].
    apply negb_true_iff.
    destruct (mem _ _) eqn:Hgone; [|reflexivity].
    apply gone_is_cid in Hgone. contradiction.
  - intros v Hv Hne. apply filter_In. split; [assumption|].
    apply negb_true_iff.
    destruct (mem _ _) eqn:Hgone; [|reflexivity].
    apply gone_is_cid in Hgone. contradiction.
Qed.

(** X7. Insert and delete are inverse on a database whose constraints hold:
    deleting a component right after inserting it gives back the database
    as it was before the insert. *)
Theorem insert_then_delete_component row d d' :
  consistent d ->
  insert_component row d = Ok d' ->
  delete_component (Component.id row) d' = d.
Proof.
  intros Hd H. unfold insert_component, has_component in H.
  destruct (mem _ _) eqn:Hfree; inversion H; subst; clear H.
  apply mem_false_iff in Hfree.
  assert (Hothers : forall c, In c (components d) ->
            (Component.id c =? Component.id row) = false).
  { intros c Hc. apply String.eqb_neq. intros E. apply Hfree.
    rewrite <- E. now apply in_map. }
  unfold delete_component, delete_components_where. simpl.
  rewrite !filter_app. simpl. rewrite String.eqb_refl. simpl.
  rewrite (filter_drops_all _ _ Hothers). simpl.
  rewrite app_nil_r.
  destruct Hd as [_ _ _ _ _ _ Hfav Hver].
  rewrite !filter_keeps_all; [now destruct d | | |].
  - intros v Hv. rewrite Forall_forall in Hver. apply Hver in Hv.
    rewrite orb_false_r. apply negb_true_iff, String.eqb_neq. congruence.
  - intros f Hf. rewrite Forall_forall in Hfav. apply Hfav in Hf.
    rewrite orb_false_r. apply negb_true_iff, String.eqb_neq. congruence.
  - intros c Hc. now rewrite Hothers.
Qed.

Lemma insert_then_delete_component_witness :
  consistent used_database /\
  exists d',
    insert_component glow_row_sample used_database = Ok d' /\
    length (components d') = 2 /\
    delete_component "glow-button-1" d' = used_database.
Proof.
  split; [exact (reachable_consistent _ used_database_reachable)|].
  eexists. split; [reflexivity|]. split; [reflexivity|].
  apply (insert_then_delete_component glow_row_sample
           used_database).
  - exact (reachable_consistent _ used_database_reachable).
  - reflexivity.
Defined.

(** * More on the seed script *)

Lemma seed_succeeds_witness :
  fst (run_seed sample_registry (calm 1000%Z) used_database) = Fulfilled tt.
Proof.
  apply (seed_succeeds sample_registry (calm 1000%Z) used_database).
  - intros k. reflexivity.
  - simpl. repeat constructor; simpl; intuition discriminate.
  - repeat constructor; eexists; reflexivity.
Defined.

Lemma run_seed_reachable_witness :
  reachable used_database /\
  reachable
    (db (snd (run_seed clashing_registry (calm 1000%Z) used_database))).
Proof.
  split; [exact used_database_reachable|].
  apply (run_seed_reachable clashing_registry (calm 1000%Z) used_database).
  exact used_database_reachable.
Defined.

Lemma Forall2_carries_ids registry rows :
  Forall2 inserted_for registry rows ->
  map Component.id rows = map ComponentMetadata.id registry.
Proof.
  induction 1 as [|comp row registry rows [now [deps [_ ->]]] _ IH]; simpl;
    [reflexivity|].
  now rewrite IH.
Qed.

(** X9. A registry in which two entries share an id cannot be seeded: in
    every fulfilled run the ids of the registry are pairwise distinct. *)
Theorem fulfilled_seed_has_distinct_ids registry w db0 p :
  run_seed registry w db0 = (Fulfilled tt, p) ->
  NoDup (map ComponentMetadata.id registry) /\
  map Component.id (components (db p)) = map ComponentMetadata.id registry.
Proof.
  intros Hrun. apply run_seed_cases in Hrun.
  destruct Hrun as [_ [[_ [Habs _]] | [_ [_ [_ [Hrows [Hkeys [_ Hend]]]]]]]];
    [discriminate|].
  destruct Hend as [[_ [Hlen _]] | [Habs _]]; [|discriminate].
  rewrite Hlen, firstn_all in Hrows.
  apply Forall2_carries_ids in Hrows. rewrite <- Hrows. auto.
Qed.

Lemma fulfilled_seed_has_distinct_ids_witness :
  NoDup (map ComponentMetadata.id sample_registry) /\
  map Component.id (components (db (snd first_run)))
    = ["glow-button-1"; "glass-navbar-1"].
Proof.
  apply (fulfilled_seed_has_distinct_ids sample_registry (calm 1000%Z)
           used_database (snd first_run)).
  reflexivity.
Defined.

(** X10. When the [deleteMany] itself is lost, the database is exactly as
    it was: nothing is deleted, no [create] is sent, and the process ends
    with status 1. *)
Theorem lost_delete_leaves_database registry w db0 c p :
  fault w 0 = true ->
  run_seed registry w db0 = (c, p) ->
  c = Exited 1%Z /\
  db p = db0 /\
  database_requests (events p) = [DeleteManyRequest] /\
  creates_issued p = 0.
Proof.
  intros Hlost. unfold run_seed. rewrite seed_script_run, main_run. simpl.
  rewrite Hlost. intros H. inversion H; subst. auto.
Qed.

Lemma lost_delete_leaves_database_witness :
  db (snd (run_seed sample_registry (failing_at 0 1000%Z) used_database))
    = used_database /\
  fst (run_seed sample_registry (failing_at 0 1000%Z) used_database)
    = Exited 1%Z.
Proof.
  destruct (lost_delete_leaves_database sample_registry (failing_at 0 1000%Z)
              used_database
              (fst (run_seed sample_registry (failing_at 0 1000%Z)
                      used_database))
              (snd (run_seed sample_registry (failing_at 0 1000%Z)
                      used_database))
              eq_refl eq_refl) as [Hc [Hdb _]].
  split; [exact Hdb | exact Hc].
Defined.

(** X11. The loop stops at the first [create] that is rejected: when the
    run is not fulfilled and its last [create] was the one for entry number
    [k], the requests it sent are the [deleteMany] and the [create]s for
    entries 0 to [k]; the entries after [k] are never attempted. *)
Theorem failed_seed_stops_at_first_failure registry w db0 c p k :
  run_seed registry w db0 = (c, p) ->
  c <> Fulfilled tt ->
  creates_issued p = S k ->
  database_requests (events p) =
    DeleteManyRequest :: map create_request (firstn (S k) registry).
Proof.
  intros Hrun Hfail Hk. apply run_seed_cases in Hrun.
  destruct Hrun as [_ [[_ [_ [_ Hnone]]] | [_ [_ [_ [_ [_ [Hreq _]]]]]]]];
    [congruence|].
  now rewrite Hk in Hreq.
Qed.

Lemma failed_seed_stops_at_first_failure_witness :
  database_requests
    (events (snd (run_seed clashing_registry (failing_at 1 1000%Z)
                    used_database)))
    = [DeleteManyRequest; create_request glow_button].
Proof.
  apply (failed_seed_stops_at_first_failure clashing_registry
           (failing_at 1 1000%Z) used_database
           (fst (run_seed clashing_registry (failing_at 1 1000%Z)
                   used_database))
           (snd (run_seed clashing_registry (failing_at 1 1000%Z)
                   used_database))
           0).
  - reflexivity.
  - discriminate.
  - reflexivity.
Defined.

Lemma console_output_app evs evs' :
  console_output (evs ++ evs') = console_output evs ++ console_output evs'.
Proof. apply flat_map_app. Qed.

Lemma seed_loop_output registry : forall w p p',
  for_of registry seed_component w p = (Fulfilled tt, p') ->
  console_output (events p') =
    console_output (events p)
    ++ map (fun comp => Added (ComponentMetadata.name comp)) registry.
Proof.
  induction registry as [|comp registry IH]; intros w p p' Hrun.
  - inversion Hrun; subst. now rewrite app_nil_r.
  - simpl in Hrun. unfold bind in Hrun at 1.
    rewrite seed_component_run in Hrun. simpl in Hrun.
    destruct (fault w (requests p)); [discriminate|].
    destruct (component_create _ _ _) as [d'|e]; [|discriminate].
    apply IH in Hrun. simpl in Hrun.
    rewrite Hrun, !console_output_app, <- !app_assoc. reflexivity.
Qed.

Lemma fulfilled_seed_row_count registry w db0 p :
  run_seed registry w db0 = (Fulfilled tt, p) ->
  length (components (db p)) = length registry.
Proof.
  intros Hrun. apply run_seed_cases in Hrun.
  destruct Hrun as [_ [[_ [Habs _]] | [_ [_ [_ [_ [_ [_ Hend]]]]]]]];
    [discriminate|].
  destruct Hend as [[_ [Hlen _]] | [Habs _]]; [assumption | discriminate].
Qed.

(** X12. A fulfilled run prints the start message, the message that the
    table was cleared, one "Added" line per registry entry with the
    entry's name, in registry order, and a final count, which is the number
    of rows now in the "Component" table. *)
Theorem fulfilled_seed_output registry w db0 p :
  run_seed registry w db0 = (Fulfilled tt, p) ->
  console_output (events p) =
    [StartingSeed; ClearedExisting]
    ++ map (fun comp => Added (ComponentMetadata.name comp)) registry
    ++ [SuccessfullySeeded (length (components (db p)))].
Proof.
  intros Hrun.
  assert (Hlen : length (components (db p)) = length registry).
  { now apply fulfilled_seed_row_count in Hrun. }
  rewrite Hlen. clear Hlen. revert Hrun.
  unfold run_seed. rewrite seed_script_run, main_run. simpl.
  destruct (fault w 0); [discriminate|].
  destruct (for_of registry seed_component w _) as [[[]|e|code] p'] eqn:Hloop;
    try discriminate.
  apply seed_loop_output in Hloop. simpl in Hloop.
  intros H. inversion H; subst; clear H. simpl.
  rewrite !console_output_app, Hloop. simpl. rewrite app_nil_r.
  reflexivity.
Qed.

Lemma fulfilled_seed_output_witness :
  console_output (events (snd first_run)) =
    [StartingSeed; ClearedExisting; Added "Glow Button";
     Added "Glassmorphism Navbar"; SuccessfullySeeded 2].
Proof.
  apply (fulfilled_seed_output sample_registry (calm 1000%Z) used_database
           (snd first_run)).
  reflexivity.
Defined.

Lemma inserted_for_array_dependencies comp row items :
  inserted_for comp row ->
  ComponentMetadata.get_dependencies comp = JsArray items ->
  Component.dependencies row = Some items.
Proof.
  intros [now [deps [Hdeps ->]]] Harray. simpl in *.
  rewrite Harray in Hdeps. simpl in Hdeps. congruence.
Qed.

(** X14. An entry whose [dependencies] is an array, the empty array
    included (an array is truthy), gets a row with exactly that array. *)
Theorem array_dependencies_are_stored registry w db0 c p :
  fault w 0 = false ->
  run_seed registry w db0 = (c, p) ->
  Forall2
    (fun comp row =>
       forall items,
         ComponentMetadata.get_dependencies comp = JsArray items ->
         Component.dependencies row = Some items)
    (firstn (length (components (db p))) registry)
    (components (db p)).
Proof.
  intros Hsent Hrun. apply run_seed_cases in Hrun.
  destruct Hrun as [_ [[Habs _] | [_ [_ [_ [Hrows _]]]]]]; [congruence|].
  eapply Forall2_weaken; [|exact Hrows].
  intros comp row Hrow items. now apply inserted_for_array_dependencies.
Qed.

Lemma array_dependencies_are_stored_witness :
  ComponentMetadata.get_dependencies glass_navbar = JsArray ["lucide-react"] /\
  Forall2
    (fun comp row =>
       forall items,
         ComponentMetadata.get_dependencies comp = JsArray items ->
         Component.dependencies row = Some items)
    sample_registry
    (components (db (snd first_run))).
Proof.
  split; [reflexivity|].
  apply (array_dependencies_are_stored sample_registry (calm 1000%Z)
           used_database (fst first_run) (snd first_run)); reflexivity.
Defined.

(** X15. A run in which [main] is rejected reports the error once, as the
    last thing the process does, and the process ends with status 1;
    everything before the report is a message or a request of [main]. *)
Theorem rejected_seed_reports_and_exits registry w db0 c p :
  run_seed registry w db0 = (c, p) ->
  c <> Fulfilled tt ->
  exit_status c = 1%Z /\
  exists e evs,
    events p = evs ++ [ConsoleError e] /\ forallb from_main evs = true.
Proof.
  intros Hrun Hfail. apply run_seed_events in Hrun.
  destruct Hrun as [evs [Hmain [[Hc _] | [e [-> Hevs]]]]]; [contradiction|].
  split; [reflexivity|]. eauto.
Qed.

Lemma rejected_seed_reports_and_exits_witness :
  exit_status (fst (run_seed clashing_registry (calm 1000%Z) used_database))
    = 1%Z /\
  exists e evs,
    events (snd (run_seed clashing_registry (calm 1000%Z) used_database))
      = evs ++ [ConsoleError e] /\
    forallb from_main evs = true.
Proof.
  apply (rejected_seed_reports_and_exits clashing_registry (calm 1000%Z)
           used_database
           (fst (run_seed clashing_registry (calm 1000%Z) used_database))
           (snd (run_seed clashing_registry (calm 1000%Z) used_database))).
  - reflexivity.
  - discriminate.
Defined.

(** X16. A fulfilled run ends by calling [$disconnect], once; it reports no
    error and the process ends with status 0. *)
Theorem fulfilled_seed_ends_with_disconnect registry w db0 c p :
  run_seed registry w db0 = (c, p) ->
  c = Fulfilled tt ->
  exit_status c = 0%Z /\
  exists evs, events p = evs ++ [Disconnect] /\ forallb from_main evs = true.
Proof.
  intros Hrun ->. apply run_seed_events in Hrun.
  destruct Hrun as [evs [Hmain [[_ Hevs] | [e [Habs _]]]]]; [|discriminate].
  split; [reflexivity|]. eauto.
Qed.

Lemma fulfilled_seed_ends_with_disconnect_witness :
  exit_status (fst first_run) = 0%Z /\
  exists evs,
    events (snd first_run) = evs ++ [Disconnect] /\
    forallb from_main evs = true.
Proof.
  apply (fulfilled_seed_ends_with_disconnect sample_registry (calm 1000%Z)
           used_database (fst first_run) (snd first_run)); reflexivity.
Defined.

(** The loop looks at the database only through the "Component" table. *)
Lemma seed_loop_ignores_other_tables registry : forall w p1 p2 c1 p1' c2 p2',
  components (db p1) = components (db p2) ->
  requests p1 = requests p2 ->
  for_of registry seed_component w p1 = (c1, p1') ->
  for_of registry seed_component w p2 = (c2, p2') ->
  c1 = c2 /\ components (db p1') = components (db p2').
Proof.
  induction registry as [|comp registry IH];
    intros w p1 p2 c1 p1' c2 p2' Hrows Hreq Hrun1 Hrun2.
  - inversion Hrun1; inversion Hrun2; subst. auto.
  - simpl in Hrun1, Hrun2. unfold bind in Hrun1 at 1, Hrun2 at 1.
    rewrite seed_component_run in Hrun1, Hrun2. simpl in Hrun1, Hrun2.
    rewrite Hreq in Hrun1.
    destruct (fault w (requests p2)).
    { inversion Hrun1; inversion Hrun2; subst. auto. }
    unfold component_create, insert_component, has_component in Hrun1, Hrun2.
    rewrite Hrows in Hrun1.
    destruct (validate_string_list _ _) as [deps|e].
    + destruct (mem _ _).
      * inversion Hrun1; inversion Hrun2; subst. auto.
      * eapply IH; [| |exact Hrun1|exact Hrun2]; reflexivity.
    + inversion Hrun1; inversion Hrun2; subst. auto.
Qed.

(** X17. Once its [deleteMany] goes through, the outcome of a run and the
    "Component" table it leaves do not depend on what the database held
    before. *)
Theorem seed_forgets_previous_contents registry w db0 db0' :
  fault w 0 = false ->
  fst (run_seed registry w db0) = fst (run_seed registry w db0') /\
  components (db (snd (run_seed registry w db0))) =
    components (db (snd (run_seed registry w db0'))).
Proof.
  intros Hsent. unfold run_seed. rewrite !seed_script_run, !main_run. simpl.
  rewrite Hsent.
  destruct (for_of registry seed_component w
              (mkProcess (delete_components_where (fun _ => true) db0) _ _))
    as [c1 p1'] eqn:Hrun1.
  destruct (for_of registry seed_component w
              (mkProcess (delete_components_where (fun _ => true) db0') _ _))
    as [c2 p2'] eqn:Hrun2.
  assert (Hsame : c1 = c2 /\ components (db p1') = components (db p2')).
  { eapply seed_loop_ignores_other_tables; [| |exact Hrun1|exact Hrun2].
    - simpl. rewrite !filter_nothing. reflexivity.
    - reflexivity. }
  destruct Hsame as [-> Hrows].
  destruct c2 as [[]|e|code]; simpl; auto.
Qed.

Lemma seed_forgets_previous_contents_witness :
  components (db (snd (run_seed sample_registry (calm 1000%Z) used_database)))
  = components
      (db (snd (run_seed sample_registry (calm 1000%Z) empty_database))).
Proof.
  apply (seed_forgets_previous_contents sample_registry (calm 1000%Z)
           used_database empty_database).
  reflexivity.
Defined.

(** * More on the client singleton *)

Lemma evaluate_cached node_env rt cached :
  Singleton.globalForPrisma rt = Some cached ->
  Singleton.evaluate node_env rt = (cached, rt).
Proof.
  intros Hcached. unfold Singleton.evaluate. rewrite Hcached.
  destruct (Singleton.not_production node_env); [|reflexivity].
  destruct rt as [g k]. simpl in *. now subst.
Qed.

(** X18. Whatever NODE_ENV is, a client already held by [globalThis] is the
    one every evaluation exports: the module constructs nothing and leaves
    [globalThis] as it is. *)
Theorem cached_client_is_reused node_env n rt cached :
  Singleton.globalForPrisma rt = Some cached ->
  Singleton.reload node_env n rt = (repeat cached n, rt).
Proof.
  intros Hcached. induction n as [|n IH]; [reflexivity|].
  simpl. rewrite (evaluate_cached _ _ _ Hcached), IH. reflexivity.
Qed.

Lemma cached_client_is_reused_witness :
  Singleton.reload (Some "production") 3 (Singleton.mkRuntime (Some 0) 1)
  = ([0; 0; 0], Singleton.mkRuntime (Some 0) 1).
Proof.
  apply (cached_client_is_reused (Some "production") 3
           (Singleton.mkRuntime (Some 0) 1) 0).
  reflexivity.
Defined.

Lemma production_constructs_per_evaluation_witness :
  Singleton.reload (Some "production") 3 (Singleton.mkRuntime None 0)
  = ([0; 1; 2], Singleton.mkRuntime None 3).
Proof.
  apply (production_constructs_per_evaluation 3 (Singleton.mkRuntime None 0)).
  reflexivity.
Defined.
